(** * world-photos: the EXIF extractor ([extract_exif.py])

    A shallow embedding of the functions that decide where a photo goes on
    the map: [dms_to_decimal], [get_gps_info], [infer_location] and the
    two-pass loop of [scan_images], followed by the properties of the
    temporal-proximity inference that the design document states.

    Python floats are IEEE binary64 values, modelled by Rocq's primitive
    [float]; Python ints are [Z]; exceptions are an explicit error result. *)

From Stdlib Require Import ZArith List Floats Lia.
From stdpp Require Import base option list strings gmap.

Local Open Scope Z_scope.
Set Warnings "-inexact-float,-register-all".

(* ===================================================================== *)
(** ** Python values, exceptions *)
(* ===================================================================== *)

(** The values that can sit in a decoded EXIF dictionary, as far as the
    extractor looks at them.  Any object with a [__float__] of its own (an
    [IFDRational], say) is represented by the float it converts to. *)
Inductive pyval : Type :=
  | VNone
  | VInt (n : Z)
  | VFloat (x : float)
  | VStr (s : string)
  | VTuple (items : list pyval).

Inductive exn : Type :=
  | KeyError
  | TypeError
  | ZeroDivisionError
  | ValueError
  | IndexError
  | OverflowError.

Definition exn_eqb (a b : exn) : bool :=
  match a, b with
  | KeyError, KeyError | TypeError, TypeError
  | ZeroDivisionError, ZeroDivisionError | ValueError, ValueError
  | IndexError, IndexError | OverflowError, OverflowError => true
  | _, _ => false
  end.

(** A computation either returns or raises. *)
Inductive result (A : Type) : Type :=
  | Ok (a : A)
  | Raise (e : exn).
Arguments Ok {A} a.
Arguments Raise {A} e.

#[global] Instance result_ret : MRet result := fun _ a => Ok a.
#[global] Instance result_bind : MBind result := fun _ _ f m =>
  match m with
  | Ok a => f a
  | Raise e => Raise e
  end.

(** [try: body except (e1, e2, ...): handler] *)
Definition try_except {A} (body : result A) (caught : list exn) (handler : result A)
  : result A :=
  match body with
  | Ok a => Ok a
  | Raise e => if existsb (exn_eqb e) caught then handler else Raise e
  end.

Definition returns {A} (r : result A) : Prop := exists a, r = Ok a.

(* ===================================================================== *)
(** ** Floats: conversion from int, [round(x, 6)] *)
(* ===================================================================== *)

(** [float(n)] for an int: the nearest double, ties to even;
    [OverflowError] when the int is too large for a double. *)
Definition float_of_int (n : Z) : result float :=
  match binary_normalize prec emax n 0 false with
  | S754_infinity _ => Raise OverflowError
  | sf => Ok (SF2Prim sf)
  end.

(** The int operand of [float / int], here always a [len(...)]: a list
    length is far below the range where the conversion could overflow. *)
Definition float_of_len (n : nat) : float :=
  SF2Prim (binary_normalize prec emax (Z.of_nat n) 0 false).

(** [num / den] rounded to the nearest integer, ties to even ([0 < den]). *)
Definition round_half_even (num den : Z) : Z :=
  let q := num / den in
  let r := num mod den in
  match 2 * r ?= den with
  | Lt => q
  | Gt => q + 1
  | Eq => if Z.even q then q else q + 1
  end.

(** The exact value [m * 2^e] in millionths, rounded to an integer. *)
Definition micro_units (m : positive) (e : Z) : Z :=
  match e with
  | Zneg p => round_half_even (Zpos m * 1000000) (2 ^ Zpos p)
  | _ => Zpos m * 1000000 * 2 ^ e
  end.

(** [round(x, 6)] on a float: the exact binary value of [x] is rounded to
    six decimals (ties to even) and the decimal result is converted back to
    the nearest double; the sign of [x] is kept; [nan] and the infinities
    are returned unchanged. *)
Definition py_round6 (x : float) : float :=
  match Prim2SF x with
  | S754_finite s m e =>
      match micro_units m e with
      | Zpos k =>
          SF2Prim (SFdiv prec emax (S754_finite s k 0) (S754_finite false 1000000 0))
      | _ => SF2Prim (S754_zero s)
      end
  | _ => x
  end.

(** [sum(xs)] for floats as CPython up to 3.11 computes it: starting from
    the int [0], plain additions from left to right. *)
Definition sum_left_to_right (xs : list float) : float :=
  fold_left PrimFloat.add xs 0%float.

(** One round of the compensated loop that CPython runs from 3.12 on: the
    running sum and the compensation. *)
Definition compensated_step (acc : float * float) (x : float) : float * float :=
  let '(f_result, c) := acc in
  let t := (f_result + x)%float in
  let c' :=
    if PrimFloat.leb (abs x) (abs f_result)
    then (c + ((f_result - t) + x))%float
    else (c + ((x - t) + f_result))%float in
  (t, c').

(** [sum(xs)] for floats as CPython from 3.12 on computes it: the first
    float is added to the int [0], the others go through the compensated
    loop, and the compensation is added at the end when it is finite and
    not zero. *)
Definition sum_compensated (xs : list float) : float :=
  match xs with
  | [] => 0%float
  | x :: rest =>
      let '(f_result, c) := fold_left compensated_step rest ((0 + x)%float, 0%float) in
      if negb (PrimFloat.eqb c 0) && is_finite c then (f_result + c)%float
      else f_result
  end.

(** [sum(xs)]: which of the two the interpreter runs is not fixed by the
    program, so it is a parameter of everything that averages. *)
Definition py_sum (compensated : bool) (xs : list float) : float :=
  if compensated then sum_compensated xs else sum_left_to_right xs.

(* ===================================================================== *)
(** ** [dms_to_decimal], [get_gps_info] *)
(* ===================================================================== *)

Section Gps.

(** [float(s)] for a str: the parsed value, or [None] where Python raises
    [ValueError].  The literal grammar is the interpreter's, not this
    program's, so it stays a parameter. *)
Variable float_of_str : string -> option float.

(** [float(v)] *)
Definition py_float (v : pyval) : result float :=
  match v with
  | VNone => Raise TypeError
  | VInt n => float_of_int n
  | VFloat x => Ok x
  | VStr s =>
      match float_of_str s with
      | Some x => Ok x
      | None => Raise ValueError
      end
  | VTuple _ => Raise TypeError
  end.

(** [v[i]] for a non-negative constant index *)
Definition py_getitem (v : pyval) (i : nat) : result pyval :=
  match v with
  | VTuple items =>
      match items !! i with
      | Some c => Ok c
      | None => Raise IndexError
      end
  | VStr s =>
      match String.get i s with
      | Some c => Ok (VStr (String c EmptyString))
      | None => Raise IndexError
      end
  | VNone | VInt _ | VFloat _ => Raise TypeError
  end.

(** [ref in ("S", "W")] *)
Definition ref_in_SW (ref : pyval) : bool :=
  match ref with
  | VStr s => String.eqb s "S" || String.eqb s "W"
  | _ => false
  end.

Definition dms_to_decimal (dms ref : pyval) : result float :=
  d0 ← py_getitem dms 0;
  degrees ← py_float d0;
  d1 ← py_getitem dms 1;
  minutes ← py_float d1;
  d2 ← py_getitem dms 2;
  seconds ← py_float d2;
  let decimal := (degrees + minutes / 60 + seconds / 3600)%float in
  let decimal := if ref_in_SW ref then (- decimal)%float else decimal in
  Ok (py_round6 decimal).

(** [gps[key]] on a dict *)
Definition dict_getitem (gps : gmap string pyval) (key : string) : result pyval :=
  match gps !! key with
  | Some v => Ok v
  | None => Raise KeyError
  end.

(** The argument is [exif.get("GPSInfo")] with its keys named through
    [GPSTAGS]: [None] when the tag is absent. *)
Definition get_gps_info (gps_raw : option (gmap string pyval))
  : result (option float * option float) :=
  match gps_raw with
  | None => Ok (None, None)
  | Some gps =>
      if bool_decide (size gps = 0%nat) then Ok (None, None)
      else
        try_except
          (la ← dict_getitem gps "GPSLatitude";
           lar ← dict_getitem gps "GPSLatitudeRef";
           lat ← dms_to_decimal la lar;
           lo ← dict_getitem gps "GPSLongitude";
           lor ← dict_getitem gps "GPSLongitudeRef";
           lng ← dms_to_decimal lo lor;
           Ok (Some lat, Some lng))
          [KeyError; TypeError; ZeroDivisionError]
          (Ok (None, None))
  end.

End Gps.

(* ===================================================================== *)
(** ** The per-day index of known locations *)
(* ===================================================================== *)

Definition coord : Type := float * float.

(** [day_locations]: a [defaultdict(list)] from a date to the coordinates
    seen on it.  A dict iterates in the order its keys were first inserted,
    so the index is the list of its items in that order; a date is its
    proleptic ordinal, so that [(a - b).days] is a subtraction. *)
Definition day_index : Type := list (Z * list coord).

Fixpoint dl_lookup (day : Z) (dl : day_index) : option (list coord) :=
  match dl with
  | [] => None
  | (d, cs) :: rest => if Z.eqb d day then Some cs else dl_lookup day rest
  end.

(** [day_locations[day].append(c)] *)
Fixpoint dl_append (day : Z) (c : coord) (dl : day_index) : day_index :=
  match dl with
  | [] => [(day, [c])]
  | (d, cs) :: rest =>
      if Z.eqb d day then (d, cs ++ [c]) :: rest
      else (d, cs) :: dl_append day c rest
  end.

(** [day_locations[day]] as a read: a [defaultdict] creates the missing
    key with an empty list, at the end of the iteration order. *)
Definition dd_getitem (day : Z) (dl : day_index) : list coord * day_index :=
  match dl_lookup day dl with
  | Some cs => (cs, dl)
  | None => ([], dl ++ [(day, [])])
  end.

Definition days (dl : day_index) : list Z := map fst dl.

(** One round of the search loop of [infer_location]; the pair is
    [(best_day, best_delta)]. *)
Definition scan_day (photo_date : Z) (best : option Z * option Z) (day : Z)
  : option Z * option Z :=
  let delta := Z.abs (day - photo_date) in
  match snd best with
  | None => (Some day, Some delta)
  | Some best_delta =>
      if delta <? best_delta then (Some day, Some delta) else best
  end.

Definition nearest_day (photo_date : Z) (dl : day_index) : option Z * option Z :=
  fold_left (scan_day photo_date) (days dl) (None, None).

(** [round(sum(xs) / len(xs), 6)]: with no element the quotient is the int
    division [0 / 0]. *)
Definition mean6 (compensated : bool) (xs : list float) : result float :=
  match xs with
  | [] => Raise ZeroDivisionError
  | _ :: _ => Ok (py_round6 (py_sum compensated xs / float_of_len (length xs))%float)
  end.

(** Lines 138-141: the average coordinate of the chosen day. *)
Definition average_coordinate (compensated : bool) (coords : list coord)
  : result coord :=
  avg_lat ← mean6 compensated (map fst coords);
  avg_lng ← mean6 compensated (map snd coords);
  Ok (avg_lat, avg_lng).

(* ===================================================================== *)
(** ** [infer_location] and the two passes of [scan_images] *)
(* ===================================================================== *)

(** One discovered file, with what the decoders outside this program
    return for it. *)
Record photo_file : Type := {
  file_name : string;                      (* filepath.name *)
  file_path : string;                      (* str(filepath) *)
  is_heic : bool;                          (* suffix.lower() in HEIC_EXTS *)
  GPSInfo : option (gmap string pyval);    (* get_exif_data(..).get("GPSInfo") *)
  date_taken : option Z;                   (* get_date_taken(exif) *)
  converted : option string                (* convert_heic_to_jpeg(filepath), as
                                              it returns at the file's turn in
                                              this run *)
}.

(** An entry dict; a key that is not set yet is [None]. *)
Record entry : Type := {
  filename : string;
  path : string;
  timestamp : Z;
  lat : option float;
  lng : option float;
  approximate : option bool
}.

Definition located (e : entry) (la ln : float) (approx : bool) : entry :=
  {| filename := filename e; path := path e; timestamp := timestamp e;
     lat := Some la; lng := Some ln; approximate := Some approx |}.

(** The local variables of [scan_images]. *)
Record scan_vars : Type := {
  geotagged : list entry;
  no_gps : list entry;
  day_locations : day_index;
  inferred_count : nat;
  still_missing : nat
}.

Definition scan_init : scan_vars :=
  {| geotagged := []; no_gps := []; day_locations := [];
     inferred_count := 0; still_missing := 0 |}.

(** A [for] loop whose body may raise. *)
Fixpoint for_each {S A} (body : S -> A -> result S) (st : S) (items : list A)
  : result S :=
  match items with
  | [] => Ok st
  | x :: rest => st' ← body st x; for_each body st' rest
  end.

Section Engine.

(** [datetime.fromtimestamp(ms / 1000).date()], as an ordinal: it depends
    on the time zone of the machine. *)
Variable local_date : Z -> Z.

(** Whether the interpreter's [sum()] compensates (CPython 3.12 on). *)
Variable compensated_sum : bool.

(** Whether [pillow_heif] could be imported. *)
Variable HEIC_SUPPORT : bool.

Variable float_of_str : string -> option float.

(** Returns the triple [(lat, lng, delta)], or [None] for
    [(None, None, None)], together with the index as the call leaves it. *)
Definition infer_location (timestamp_ms : Z) (dl : day_index)
  : result (option (float * float * Z)) * day_index :=
  match dl with
  | [] => (Ok None, dl)
  | _ :: _ =>
      let photo_date := local_date timestamp_ms in
      match nearest_day photo_date dl with
      | (None, _) => (Ok None, dl)
      | (Some best_day, None) => (Raise TypeError, dl)
      | (Some best_day, Some best_delta) =>
          if 3 <? best_delta then (Ok None, dl)
          else
            let '(coords, dl') := dd_getitem best_day dl in
            (c ← average_coordinate compensated_sum coords;
             Ok (Some (fst c, snd c, best_delta)), dl')
      end
  end.

(** The body of the first loop. *)
Definition pass1_step (st : scan_vars) (f : photo_file) : result scan_vars :=
  if is_heic f && negb HEIC_SUPPORT then Ok st
  else
    gps ← get_gps_info float_of_str (GPSInfo f);
    match date_taken f with
    | None => Ok st
    | Some ts =>
        match (if is_heic f then converted f else Some (file_path f)) with
        | None => Ok st
        | Some serve_path =>
            let e := {| filename := file_name f; path := serve_path;
                        timestamp := ts; lat := None; lng := None;
                        approximate := None |} in
            match gps with
            | (Some la, Some ln) =>
                Ok {| geotagged := geotagged st ++ [located e la ln false];
                      no_gps := no_gps st;
                      day_locations :=
                        dl_append (local_date ts) (la, ln) (day_locations st);
                      inferred_count := inferred_count st;
                      still_missing := still_missing st |}
            | _ =>
                Ok {| geotagged := geotagged st;
                      no_gps := no_gps st ++ [e];
                      day_locations := day_locations st;
                      inferred_count := inferred_count st;
                      still_missing := still_missing st |}
            end
        end
    end.

(** The body of the second loop.  The entry dict is updated in place, so
    the element of [no_gps] changes with it; nothing reads that list
    again, and it is left as it was. *)
Definition pass2_step (st : scan_vars) (e : entry) : result scan_vars :=
  let '(r, dl) := infer_location (timestamp e) (day_locations st) in
  found ← r;
  match found with
  | Some (la, ln, _) =>
      Ok {| geotagged := geotagged st ++ [located e la ln true];
            no_gps := no_gps st;
            day_locations := dl;
            inferred_count := S (inferred_count st);
            still_missing := still_missing st |}
  | None =>
      Ok {| geotagged := geotagged st;
            no_gps := no_gps st;
            day_locations := dl;
            inferred_count := inferred_count st;
            still_missing := S (still_missing st) |}
  end.

Definition pass1 (files : list photo_file) : result scan_vars :=
  for_each pass1_step scan_init files.

Definition pass2 (st : scan_vars) : result scan_vars :=
  for_each pass2_step st (no_gps st).

(** The variables of [scan_images] when it reaches its summary. *)
Definition scan_run (files : list photo_file) : result scan_vars :=
  st ← pass1 files; pass2 st.

(** The three numbers of the printed summary: exact, inferred, missing. *)
Definition summary (st : scan_vars) : Z * Z * Z :=
  (Z.of_nat (length (geotagged st)) - Z.of_nat (inferred_count st),
   Z.of_nat (inferred_count st),
   Z.of_nat (still_missing st)).

(** [images] is [None] when the images folder does not exist, and else the
    sorted list of its files. *)
Definition scan_images (images : option (list photo_file)) : result (list entry) :=
  match images with
  | None => Ok []
  | Some files => st ← scan_run files; Ok (geotagged st)
  end.

End Engine.

(* ===================================================================== *)
(** ** What the design document calls things *)
(* ===================================================================== *)

(** [degrees + minutes/60 + seconds/3600], negated for a southern or
    western reference. *)
Definition signed_decimal (d m s : float) (negated : bool) : float :=
  let magnitude := (d + m / 60 + s / 3600)%float in
  if negated then (- magnitude)%float else magnitude.

Section GpsShapes.

Variable float_of_str : string -> option float.

(** A component [float()] accepts. *)
Definition numeric (c : pyval) : Prop := returns (py_float float_of_str c).

(** A component [float()] rejects for its type. *)
Definition not_a_number (c : pyval) : Prop :=
  c = VNone \/ exists items, c = VTuple items.

(** A DMS value with its three numeric components. *)
Definition wellformed_dms (v : pyval) : Prop :=
  exists c0 c1 c2 rest,
    v = VTuple (c0 :: c1 :: c2 :: rest) /\ numeric c0 /\ numeric c1 /\ numeric c2.

(** A DMS value that cannot be subscripted, or whose first component that
    is not numeric is of a type that is no number at all. *)
Inductive type_malformed_dms : pyval -> Prop :=
  | tm_none : type_malformed_dms VNone
  | tm_int n : type_malformed_dms (VInt n)
  | tm_float x : type_malformed_dms (VFloat x)
  | tm_component items i c :
      (i < 3)%nat ->
      items !! i = Some c ->
      not_a_number c ->
      (forall j cj, (j < i)%nat -> items !! j = Some cj -> numeric cj) ->
      type_malformed_dms (VTuple items).

(** The GPS blocks for which [get_gps_info] answers "no coordinate". *)
Inductive gps_unusable : option (gmap string pyval) -> Prop :=
  | gu_no_block : gps_unusable None
  | gu_empty_block : gps_unusable (Some ∅)
  | gu_lat_key gps k :
      k = "GPSLatitude"%string \/ k = "GPSLatitudeRef"%string ->
      gps !! k = None ->
      gps_unusable (Some gps)
  | gu_lat_value gps la :
      gps !! "GPSLatitude"%string = Some la ->
      type_malformed_dms la ->
      gps_unusable (Some gps)
  | gu_lng_key gps la k :
      gps !! "GPSLatitude"%string = Some la ->
      wellformed_dms la ->
      k = "GPSLongitude"%string \/ k = "GPSLongitudeRef"%string ->
      gps !! k = None ->
      gps_unusable (Some gps)
  | gu_lng_value gps la lo :
      gps !! "GPSLatitude"%string = Some la ->
      wellformed_dms la ->
      gps !! "GPSLongitude"%string = Some lo ->
      type_malformed_dms lo ->
      gps_unusable (Some gps).

End GpsShapes.

(** A string conversion that accepts nothing, for inputs without strings
    among their DMS components. *)
Definition no_numeric_str : string -> option float := fun _ => None.

(** New York, with a latitude reference that is no hemisphere. *)
Definition gps_odd_ref : gmap string pyval :=
  <["GPSLatitude" := VTuple [VInt 40; VInt 26; VInt 46]]>
  (<["GPSLatitudeRef" := VStr "X"]>
  (<["GPSLongitude" := VTuple [VInt 73; VInt 59; VInt 11]]>
  (<["GPSLongitudeRef" := VStr "W"]> ∅))).

(** A latitude with two components only. *)
Definition gps_short_triple : gmap string pyval :=
  <["GPSLatitude" := VTuple [VInt 40; VInt 26]]>
  (<["GPSLatitudeRef" := VStr "N"]>
  (<["GPSLongitude" := VTuple [VInt 73; VInt 59; VInt 11]]>
  (<["GPSLongitudeRef" := VStr "W"]> ∅))).

(** A latitude whose seconds were never filled in. *)
Definition gps_none_seconds : gmap string pyval :=
  <["GPSLatitude" := VTuple [VInt 40; VInt 26; VNone]]>
  (<["GPSLatitudeRef" := VStr "N"]>
  (<["GPSLongitude" := VTuple [VInt 73; VInt 59; VInt 11]]>
  (<["GPSLongitudeRef" := VStr "W"]> ∅))).

(** The distance between two dates, in whole days. *)
Definition day_distance (a b : Z) : Z := Z.abs (a - b).

(** Every indexed day has a coordinate. *)
Definition index_nonempty (dl : day_index) : Prop :=
  Forall (fun item => snd item <> []) dl.

Definition is_exact (e : entry) : bool :=
  match approximate e with Some false => true | _ => false end.

Definition is_inferred (e : entry) : bool :=
  match approximate e with Some true => true | _ => false end.

Section EngineWords.

Variable local_date : Z -> Z.
Variable compensated_sum : bool.
Variable HEIC_SUPPORT : bool.
Variable float_of_str : string -> option float.

(** The GPS block of the file does not make the run raise: the file is
    skipped before it is decoded, or the decoder returns. *)
Definition decodes (f : photo_file) : Prop :=
  is_heic f && negb HEIC_SUPPORT = true
  \/ returns (get_gps_info float_of_str (GPSInfo f)).

(** The record of a file that is usable: it has HEIC support if it needs
    it, a capture time, and a path to serve. *)
Definition usable_record (f : photo_file) : option entry :=
  if is_heic f && negb HEIC_SUPPORT then None
  else
    ts ← date_taken f;
    serve_path ← (if is_heic f then converted f else Some (file_path f));
    Some {| filename := file_name f; path := serve_path; timestamp := ts;
            lat := None; lng := None; approximate := None |}.

(** The photo record of a usable file that carries its own coordinate. *)
Definition exact_record (f : photo_file) : option entry :=
  e ← usable_record f;
  match get_gps_info float_of_str (GPSInfo f) with
  | Ok (Some la, Some ln) => Some (located e la ln false)
  | _ => None
  end.

(** The pending record of a usable file without a coordinate. *)
Definition pending_record (f : photo_file) : option entry :=
  e ← usable_record f;
  match get_gps_info float_of_str (GPSInfo f) with
  | Ok (Some _, Some _) => None
  | Ok _ => Some e
  | Raise _ => None
  end.

(** The photo record inference gives a pending record, if any. *)
Definition inferred_record (dl : day_index) (e : entry) : option entry :=
  match fst (infer_location local_date compensated_sum (timestamp e) dl) with
  | Ok (Some (la, ln, _)) => Some (located e la ln true)
  | _ => None
  end.

(** Inference produced no coordinate for the pending record. *)
Definition unresolved (dl : day_index) (e : entry) : bool :=
  match fst (infer_location local_date compensated_sum (timestamp e) dl) with
  | Ok None => true
  | _ => false
  end.

(** The index after the coordinate of a record is inserted under the day
    of its timestamp. *)
Definition index_add (dl : day_index) (e : entry) : day_index :=
  match lat e, lng e with
  | Some la, Some ln => dl_append (local_date (timestamp e)) (la, ln) dl
  | _, _ => dl
  end.

(** The index that the coordinates of the given records make, inserted in
    their order. *)
Definition index_of (es : list entry) : day_index :=
  fold_left index_add es [].

(** The variables after a record with its own coordinate was emitted and
    indexed, and after a record was queued for the second pass. *)
Definition with_exact (st : scan_vars) (x : entry) : scan_vars :=
  {| geotagged := geotagged st ++ [x];
     no_gps := no_gps st;
     day_locations := index_add (day_locations st) x;
     inferred_count := inferred_count st;
     still_missing := still_missing st |}.

Definition with_pending (st : scan_vars) (p : entry) : scan_vars :=
  {| geotagged := geotagged st;
     no_gps := no_gps st ++ [p];
     day_locations := day_locations st;
     inferred_count := inferred_count st;
     still_missing := still_missing st |}.

(** The two pools, the index and the counters, said in one piece: exact
    records in input order, then the inferred ones in the order of the
    pending pool, over the index of the exact records. *)
Definition scan_outcome (files : list photo_file) : scan_vars :=
  let exacts := omap exact_record files in
  let pendings := omap pending_record files in
  let dl := index_of exacts in
  {| geotagged := exacts ++ omap (inferred_record dl) pendings;
     no_gps := pendings;
     day_locations := dl;
     inferred_count := length (omap (inferred_record dl) pendings);
     still_missing := length (List.filter (unresolved dl) pendings) |}.

End EngineWords.

(* ===================================================================== *)
(** ** A small collection, for examples *)
(* ===================================================================== *)

(** A machine whose local time is UTC. *)
Definition utc_date (ms : Z) : Z := ms / 86400000 + 719163.

(** Noon of the given day of January 2024, in epoch milliseconds. *)
Definition january (day : Z) : Z := (19722 + day) * 86400000 + 43200000.

(** A GPS block of whole degrees north and east. *)
Definition gps_block (lat_degrees lng_degrees : Z) : gmap string pyval :=
  <["GPSLatitude" := VTuple [VInt lat_degrees; VInt 0; VInt 0]]>
  (<["GPSLatitudeRef" := VStr "N"]>
  (<["GPSLongitude" := VTuple [VInt lng_degrees; VInt 0; VInt 0]]>
  (<["GPSLongitudeRef" := VStr "E"]> ∅))).

Definition jpeg (name : string) (gps : option (gmap string pyval))
    (taken : option Z) : photo_file :=
  {| file_name := name; file_path := "images/" ++ name; is_heic := false;
     GPSInfo := gps; date_taken := taken; converted := None |}.

Definition heic (name : string) (gps : option (gmap string pyval))
    (taken : option Z) (jpeg_path : option string) : photo_file :=
  {| file_name := name; file_path := "images/" ++ name; is_heic := true;
     GPSInfo := gps; date_taken := taken; converted := jpeg_path |}.

Definition pending_on (name : string) (day : Z) : entry :=
  {| filename := name; path := "images/" ++ name; timestamp := january day;
     lat := None; lng := None; approximate := None |}.


(** The variables after a pending record was given the coordinate [c],
    and after it was left without one. *)
Definition with_inferred (st : scan_vars) (e : entry) (c : coord) : scan_vars :=
  {| geotagged := geotagged st ++ [located e (fst c) (snd c) true];
     no_gps := no_gps st;
     day_locations := day_locations st;
     inferred_count := S (inferred_count st);
     still_missing := still_missing st |}.

Definition with_unresolved (st : scan_vars) : scan_vars :=
  {| geotagged := geotagged st;
     no_gps := no_gps st;
     day_locations := day_locations st;
     inferred_count := inferred_count st;
     still_missing := S (still_missing st) |}.

(** The arithmetic mean of the values, rounded to six decimals. *)
Definition rounded_mean (compensated : bool) (xs : list float) : float :=
  py_round6 (py_sum compensated xs / float_of_len (length xs))%float.

(** Two fixes on New Year's Day. *)
Definition new_year_index : day_index :=
  dl_append (utc_date (january 1)) (12, 22)%float
    (dl_append (utc_date (january 1)) (10, 20)%float []).

(** An iPhone photo with a fix on New Year's Day, and a scan with no fix
    taken the day after. *)
Definition iphone_photo (jpeg_path : option string) : photo_file :=
  heic "a.heic" (Some (gps_block 10 20)) (Some (january 1)) jpeg_path.

Definition scanned_photo : photo_file := jpeg "b.jpg" None (Some (january 2)).

(** A photo with a fix and no capture time. *)
Definition undated_photo : photo_file := jpeg "u.jpg" (Some (gps_block 10 20)) None.

(** The collection of the day-window example: a fix on the first of
    January, photos without one on the fourth and on the fifth. *)
Definition window_photos : list photo_file :=
  [jpeg "c.jpg" None (Some (january 5));
   jpeg "a.jpg" (Some (gps_block 10 20)) (Some (january 1));
   jpeg "b.jpg" None (Some (january 4))].

(** The index with the one fix of the first of January. *)
Definition first_of_january : day_index := [(utc_date (january 1), [(10, 20)%float])].

(** [k] is a whole number of millionths nearest to the exact value
    [m * 2^e]. *)
Definition nearest_millionths (m : positive) (e : Z) (k : Z) : Prop :=
  0 <= k /\
  match e with
  | Zneg p => Z.abs (2 * (Zpos m * 1000000 - k * 2 ^ Zpos p)) <= 2 ^ Zpos p
  | _ => k = Zpos m * 1000000 * 2 ^ e
  end.

(** The double nearest to [k / 10^6], with the given sign. *)
Definition double_of_millionths (negative : bool) (k : Z) : float :=
  match k with
  | Zpos p =>
      SF2Prim (SFdiv prec emax (S754_finite negative p 0) (S754_finite false 1000000 0))
  | _ => SF2Prim (S754_zero negative)
  end.

(** [y] is [x] rounded to six decimals: the double nearest to a decimal
    with six places that is nearest to the exact value of [x]; nothing to
    round for [nan], the infinities and the zeros. *)
Definition rounded_to_6_decimals (x y : float) : Prop :=
  match Prim2SF x with
  | S754_finite s m e =>
      exists k, nearest_millionths m e k /\ y = double_of_millionths s k
  | _ => y = x
  end.

(** Three fixes of one day, the third a step to the north-east. *)
Definition three_fixes : list coord :=
  [(10, 20)%float; (10, 20)%float; (10.000001, 20.000002)%float].

(** Four latitudes whose mean falls between two decimals. *)
Definition four_latitudes : list float :=
  [75.265509; 75.963071; 75.514607; 75.728647]%float.

(* ===================================================================== *)
(** ** Further definitions: index size, capture time *)
(* ===================================================================== *)

(** The number of coordinates held by the index, over all its days. *)
Definition index_size (dl : day_index) : nat :=
  foldr (fun item n => (length (snd item) + n)%nat) 0%nat dl.

(** [if raw:] *)
Definition py_truthy (v : pyval) : bool :=
  match v with
  | VNone => false
  | VInt n => negb (Z.eqb n 0)
  | VFloat x => negb (PrimFloat.eqb x 0)
  | VStr s => negb (String.eqb s "")
  | VTuple items => match items with [] => false | _ :: _ => true end
  end.

Section CaptureTime.

(** [int(datetime.strptime(str(raw), "%Y:%m:%d %H:%M:%S").timestamp() * 1000)]:
    the epoch milliseconds of the text read as a local time; [ValueError]
    when the text does not have the format.  Parsing and the time zone are
    the library's. *)
Variable capture_time_ms : pyval -> result Z.

(** The loop of [get_date_taken] over the tags that are left. *)
Fixpoint date_from_tags (exif : gmap string pyval) (tags : list string)
  : result (option Z) :=
  match tags with
  | [] => Ok None
  | tag :: rest =>
      match exif !! tag with
      | Some raw =>
          if py_truthy raw then
            match capture_time_ms raw with
            | Ok ms => Ok (Some ms)
            | Raise ValueError => date_from_tags exif rest
            | Raise e => Raise e
            end
          else date_from_tags exif rest
      | None => date_from_tags exif rest
      end
  end.

Definition date_tags : list string :=
  ["DateTimeOriginal"; "DateTimeDigitized"; "DateTime"]%string.

Definition get_date_taken (exif : gmap string pyval) : result (option Z) :=
  date_from_tags exif date_tags.

(** The tag holds a value the loop can use, giving [ms]. *)
Definition tag_gives (exif : gmap string pyval) (tag : string) (ms : Z) : Prop :=
  exists raw, exif !! tag = Some raw /\ py_truthy raw = true
              /\ capture_time_ms raw = Ok ms.

(** The loop passes over the tag: it is missing, falsy, or not in the
    format. *)
Definition tag_passed (exif : gmap string pyval) (tag : string) : Prop :=
  exif !! tag = None
  \/ exists raw, exif !! tag = Some raw
                 /\ (py_truthy raw = false \/ capture_time_ms raw = Raise ValueError).

End CaptureTime.

(** Reads the int in a tag as the milliseconds themselves, and takes any
    other value as out of format: a stand-in for the examples. *)
Definition ms_of_int (v : pyval) : result Z :=
  match v with
  | VInt n => Ok n
  | _ => Raise ValueError
  end.

(** An EXIF block whose original capture time is unreadable and whose
    digitized time is fine. *)
Definition exif_fallback : gmap string pyval :=
  <["DateTimeOriginal" := VStr "0000:00:00 00:00:00"]>
  (<["DateTimeDigitized" := VInt 1704110400000]>
  (<["DateTime" := VInt 1704200000000]> ∅)).

(** A photo without a capture time whose latitude lacks its seconds. *)
Definition broken_undated_photo : photo_file :=
  jpeg "x.jpg" (Some gps_short_triple) None.

(** A geotagged photo of the third of January. *)
Definition photo_of_third : photo_file :=
  jpeg "d.jpg" (Some (gps_block 12 22)) (Some (january 3)).

(* ===================================================================== *)
(** ** HEIC conversion *)
(* ===================================================================== *)

(** What opening, converting and saving the image comes to: the JPEG is
    written, or an exception is caught, with or without a file left at the
    destination. *)
Inductive transcoding : Type :=
  | Saved
  | Failed (leftover : bool).

(** The name of the JPEG inside the converted folder: [stem + ".jpg"]. *)
Definition jpeg_name (stem : string) : string := stem ++ ".jpg".

(** [convert_heic_to_jpeg], for a source with the given stem, over the set
    of the files present in the converted folder (which [mkdir] has
    created): the destination returned, if any, and the files present
    afterwards. *)
Definition convert_heic_to_jpeg (stem : string) (outcome : transcoding)
    (present : gset string) : option string * gset string :=
  let dest := jpeg_name stem in
  if bool_decide (dest ∈ present) then (Some dest, present)
  else
    match outcome with
    | Saved => (Some dest, {[dest]} ∪ present)
    | Failed leftover =>
        (None, if leftover then {[dest]} ∪ present else present)
    end.

(* ===================================================================== *)
(** ** Coordinate construction *)
(* ===================================================================== *)

Lemma round_half_even_nearest num den :
  0 < den -> Z.abs (2 * (num - round_half_even num den * den)) <= den.
Proof.
  intros Hden. unfold round_half_even.
  pose proof (Z.div_mod num den ltac:(lia)) as Hdm.
  pose proof (Z.mod_pos_bound num den Hden) as Hr.
  destruct (Z.compare_spec (2 * (num mod den)) den);
    [destruct (Z.even (num / den)) | |]; nia.
Qed.

Section GpsFacts.

Variable float_of_str : string -> option float.

Local Abbreviation py_float := (py_float float_of_str).
Local Abbreviation dms_to_decimal := (dms_to_decimal float_of_str).
Local Abbreviation get_gps_info := (get_gps_info float_of_str).
Local Abbreviation numeric := (numeric float_of_str).
Local Abbreviation wellformed_dms := (wellformed_dms float_of_str).
Local Abbreviation type_malformed_dms := (type_malformed_dms float_of_str).
Local Abbreviation gps_unusable := (gps_unusable float_of_str).

Lemma not_a_number_raises c : not_a_number c -> py_float c = Raise TypeError.
Proof. intros [-> | [items ->]]; reflexivity. Qed.

Lemma dms_of_triple c0 c1 c2 rest ref d m s :
  py_float c0 = Ok d -> py_float c1 = Ok m -> py_float c2 = Ok s ->
  dms_to_decimal (VTuple (c0 :: c1 :: c2 :: rest)) ref
  = Ok (py_round6 (signed_decimal d m s (ref_in_SW ref))).
Proof.
  intros H0 H1 H2. unfold dms_to_decimal; cbn.
  rewrite H0; cbn. rewrite H1; cbn. rewrite H2; cbn.
  unfold signed_decimal. reflexivity.
Qed.

Lemma wellformed_returns v ref : wellformed_dms v -> returns (dms_to_decimal v ref).
Proof.
  intros (c0 & c1 & c2 & rest & -> & [d Hd] & [m Hm] & [s Hs]).
  eexists. eapply dms_of_triple; eassumption.
Qed.

Lemma type_malformed_raises v ref :
  type_malformed_dms v -> dms_to_decimal v ref = Raise TypeError.
Proof.
  destruct 1 as [| n | x | items i c Hi Hc Hnan Hbefore]; try reflexivity.
  apply not_a_number_raises in Hnan.
  unfold dms_to_decimal.
  destruct i as [| [| [| i]]]; [| | | lia].
  - destruct items as [| c0 items]; [discriminate |].
    cbn in Hc; injection Hc as ->. cbn. rewrite Hnan. reflexivity.
  - destruct items as [| c0 [| c1 items]]; try discriminate.
    cbn in Hc; injection Hc as ->.
    destruct (Hbefore 0%nat c0 ltac:(lia) eq_refl) as [d Hd].
    cbn. rewrite Hd; cbn. rewrite Hnan. reflexivity.
  - destruct items as [| c0 [| c1 [| c2 items]]]; try discriminate.
    cbn in Hc; injection Hc as ->.
    destruct (Hbefore 0%nat c0 ltac:(lia) eq_refl) as [d Hd].
    destruct (Hbefore 1%nat c1 ltac:(lia) eq_refl) as [m Hm].
    cbn. rewrite Hd; cbn. rewrite Hm; cbn. rewrite Hnan. reflexivity.
Qed.

Lemma nonempty_block (gps : gmap string pyval) k v :
  gps !! k = Some v -> bool_decide (size gps = 0%nat) = false.
Proof.
  intros Hk. apply bool_decide_eq_false. intros Hsize.
  apply map_size_empty_iff in Hsize. subst gps.
  rewrite lookup_empty in Hk. discriminate.
Qed.

Lemma ref_in_SW_true ref :
  ref_in_SW ref = true <-> ref = VStr "S" \/ ref = VStr "W".
Proof.
  destruct ref as [| n | x | s | items]; cbn;
    try (split; [discriminate | intros [H | H]; discriminate]).
  rewrite orb_true_iff, !String.eqb_eq.
  split; (intros [H | H]; [left | right]; congruence).
Qed.

(** C4. A DMS triple whose components convert to [d], [m] and [s] yields
    [d + m/60 + s/3600] rounded to six decimals, negated before the
    rounding exactly when the reference is S or W and left positive for
    any other reference, N and E among them; (40,26,46) N is 40.446111 and
    (73,59,11) W is -73.986389. *)
Theorem dms_to_decimal_value c0 c1 c2 rest ref d m s :
  py_float c0 = Ok d -> py_float c1 = Ok m -> py_float c2 = Ok s ->
  let magnitude := (d + m / 60 + s / 3600)%float in
  (ref = VStr "S" \/ ref = VStr "W" ->
     dms_to_decimal (VTuple (c0 :: c1 :: c2 :: rest)) ref
     = Ok (py_round6 (- magnitude)%float))
  /\ (ref <> VStr "S" -> ref <> VStr "W" ->
     dms_to_decimal (VTuple (c0 :: c1 :: c2 :: rest)) ref
     = Ok (py_round6 magnitude))
  /\ dms_to_decimal (VTuple [VInt 40; VInt 26; VInt 46]) (VStr "N")
     = Ok 40.446111%float
  /\ dms_to_decimal (VTuple [VInt 73; VInt 59; VInt 11]) (VStr "W")
     = Ok (-73.986389)%float.
Proof.
  intros H0 H1 H2 magnitude.
  pose proof (dms_of_triple c0 c1 c2 rest ref d m s H0 H1 H2) as Hv.
  unfold signed_decimal in Hv. fold magnitude in Hv.
  split; [| split; [| split]].
  - intros Href. apply ref_in_SW_true in Href. rewrite Href in Hv. exact Hv.
  - intros HS HW. destruct (ref_in_SW ref) eqn:E; [| exact Hv].
    apply ref_in_SW_true in E. destruct E; contradiction.
  - vm_compute. reflexivity.
  - vm_compute. reflexivity.
Qed.

Lemma gps_unusable_absent gps_raw :
  gps_unusable gps_raw -> get_gps_info gps_raw = Ok (None, None).
Proof.
  destruct 1 as [| | gps k Hk Hnone | gps la Hla Hbad
                 | gps la k Hla Hwf Hk Hnone | gps la lo Hla Hwf Hlo Hbad];
    unfold get_gps_info; try reflexivity;
    destruct (bool_decide (size gps = 0%nat)); try reflexivity;
    unfold dict_getitem.
  - destruct Hk as [-> | ->].
    + rewrite Hnone. reflexivity.
    + destruct (gps !! "GPSLatitude"%string); [| reflexivity].
      rewrite Hnone. reflexivity.
  - rewrite Hla.
    destruct (gps !! "GPSLatitudeRef"%string) as [lar |]; [| reflexivity].
    cbn. rewrite (type_malformed_raises la lar Hbad). reflexivity.
  - rewrite Hla.
    destruct (gps !! "GPSLatitudeRef"%string) as [lar |]; [| reflexivity].
    destruct (wellformed_returns la lar Hwf) as [lat Hlat].
    cbn. rewrite Hlat. cbn.
    destruct Hk as [-> | ->].
    + rewrite Hnone. reflexivity.
    + destruct (gps !! "GPSLongitude"%string); [| reflexivity].
      rewrite Hnone. reflexivity.
  - rewrite Hla.
    destruct (gps !! "GPSLatitudeRef"%string) as [lar |]; [| reflexivity].
    destruct (wellformed_returns la lar Hwf) as [lat Hlat].
    cbn. rewrite Hlat. cbn. rewrite Hlo.
    destruct (gps !! "GPSLongitudeRef"%string) as [lor |]; [| reflexivity].
    cbn. rewrite (type_malformed_raises lo lor Hbad). reflexivity.
Qed.

Lemma gps_complete_present (gps : gmap string pyval) la lar lo lor :
  gps !! "GPSLatitude"%string = Some la ->
  gps !! "GPSLatitudeRef"%string = Some lar ->
  gps !! "GPSLongitude"%string = Some lo ->
  gps !! "GPSLongitudeRef"%string = Some lor ->
  wellformed_dms la -> wellformed_dms lo ->
  exists lat lng,
    dms_to_decimal la lar = Ok lat /\ dms_to_decimal lo lor = Ok lng /\
    get_gps_info (Some gps) = Ok (Some lat, Some lng).
Proof.
  intros Hla Hlar Hlo Hlor Wla Wlo.
  destruct (wellformed_returns la lar Wla) as [lat Hlat].
  destruct (wellformed_returns lo lor Wlo) as [lng Hlng].
  exists lat, lng. split; [exact Hlat |]. split; [exact Hlng |].
  unfold get_gps_info. rewrite (nonempty_block gps _ _ Hla).
  unfold dict_getitem. rewrite Hla, Hlar. cbn. rewrite Hlat. cbn.
  rewrite Hlo, Hlor. cbn. rewrite Hlng. reflexivity.
Qed.

(** C3, as the code has it.  [get_gps_info] returns "no coordinate" without
    raising when the GPS block is absent or empty, when one of the keys
    GPSLatitude, GPSLatitudeRef, GPSLongitude, GPSLongitudeRef is missing,
    or when a DMS value cannot be subscripted or has a component that is no
    number at all ([None], a tuple).  A reference that is present never
    makes the coordinate absent: with both triples numeric a coordinate is
    returned for every reference value, and any reference other than S and W
    gives the positive magnitude. *)
Theorem get_gps_info_absent :
  (forall gps_raw, gps_unusable gps_raw -> get_gps_info gps_raw = Ok (None, None))
  /\ (forall (gps : gmap string pyval) la lar lo lor,
        gps !! "GPSLatitude"%string = Some la ->
        gps !! "GPSLatitudeRef"%string = Some lar ->
        gps !! "GPSLongitude"%string = Some lo ->
        gps !! "GPSLongitudeRef"%string = Some lor ->
        wellformed_dms la -> wellformed_dms lo ->
        exists lat lng,
          dms_to_decimal la lar = Ok lat /\ dms_to_decimal lo lor = Ok lng /\
          get_gps_info (Some gps) = Ok (Some lat, Some lng))
  /\ (forall c0 c1 c2 rest ref d m s,
        py_float c0 = Ok d -> py_float c1 = Ok m -> py_float c2 = Ok s ->
        ref <> VStr "S" -> ref <> VStr "W" ->
        dms_to_decimal (VTuple (c0 :: c1 :: c2 :: rest)) ref
        = Ok (py_round6 (d + m / 60 + s / 3600)%float)).
Proof.
  split; [exact gps_unusable_absent |].
  split; [exact gps_complete_present |].
  intros c0 c1 c2 rest ref d m s H0 H1 H2 HS HW.
  rewrite (dms_of_triple c0 c1 c2 rest ref d m s H0 H1 H2).
  destruct (ref_in_SW ref) eqn:E; [| reflexivity].
  apply ref_in_SW_true in E. destruct E; contradiction.
Qed.

End GpsFacts.

(** A reference character that names no hemisphere does not make the
    coordinate absent: the latitude comes out as for N. *)
Lemma odd_reference_gives_coordinate :
  get_gps_info no_numeric_str (Some gps_odd_ref)
  = Ok (Some 40.446111%float, Some (-73.986389)%float)
  /\ get_gps_info no_numeric_str (Some gps_odd_ref) <> Ok (None, None).
Proof.
  assert (H : get_gps_info no_numeric_str (Some gps_odd_ref)
              = Ok (Some 40.446111%float, Some (-73.986389)%float))
    by (vm_compute; reflexivity).
  split; [exact H |]. rewrite H. discriminate.
Qed.

(** A DMS value with a component missing raises out of [get_gps_info]:
    the handler does not list [IndexError]. *)
Lemma short_triple_raises :
  get_gps_info no_numeric_str (Some gps_short_triple) = Raise IndexError.
Proof. vm_compute. reflexivity. Qed.

(** So does a component that is a string [float()] cannot read. *)
Lemma unreadable_string_raises float_of_str (gps : gmap string pyval) s rest lar :
  float_of_str s = None ->
  gps !! "GPSLatitude"%string = Some (VTuple (VStr s :: rest)) ->
  gps !! "GPSLatitudeRef"%string = Some lar ->
  get_gps_info float_of_str (Some gps) = Raise ValueError.
Proof.
  intros Hs Hla Hlar. unfold get_gps_info.
  rewrite (nonempty_block gps _ _ Hla).
  unfold dict_getitem. rewrite Hla, Hlar. cbn. rewrite Hs. reflexivity.
Qed.

Lemma dms_to_decimal_value_witness :
  dms_to_decimal no_numeric_str (VTuple [VFloat 48.5; VInt 51; VFloat 29.6]) (VStr "S")
  = Ok (py_round6 (- (48.5 + 51 / 60 + 29.6 / 3600))%float).
Proof.
  apply (dms_to_decimal_value no_numeric_str (VFloat 48.5) (VInt 51) (VFloat 29.6)
           [] (VStr "S") 48.5%float 51%float 29.6%float);
    [reflexivity | vm_compute; reflexivity | reflexivity | left; reflexivity].
Defined.

Lemma get_gps_info_absent_witness :
  get_gps_info no_numeric_str (Some gps_none_seconds) = Ok (None, None).
Proof.
  apply (proj1 (get_gps_info_absent no_numeric_str)).
  apply (gu_lat_value no_numeric_str gps_none_seconds
           (VTuple [VInt 40; VInt 26; VNone])).
  - vm_compute. reflexivity.
  - apply (tm_component no_numeric_str [VInt 40; VInt 26; VNone] 2 VNone).
    + lia.
    + reflexivity.
    + left. reflexivity.
    + intros j cj Hj Hcj.
      destruct j as [| [| j]]; [| | lia]; cbn in Hcj; injection Hcj as <-;
        eexists; vm_compute; reflexivity.
Defined.

(* ===================================================================== *)
(** ** The index: insertion order, nearest day, average *)
(* ===================================================================== *)

Lemma for_each_app {S A} (body : S -> A -> result S) st xs ys :
  for_each body st (xs ++ ys) = (st' ← for_each body st xs; for_each body st' ys).
Proof.
  revert st. induction xs as [| x xs IH]; intros st; cbn; [reflexivity |].
  destruct (body st x) as [st' | e]; cbn; [apply IH | reflexivity].
Qed.

Lemma dl_lookup_days day dl :
  day ∈ days dl <-> exists cs, dl_lookup day dl = Some cs.
Proof.
  unfold days.
  induction dl as [| [d cs] dl IH]; cbn.
  - split; [intros H; inversion H | intros [cs H]; discriminate].
  - rewrite elem_of_cons. destruct (Z.eqb_spec d day) as [-> | Hne].
    + split; [intros _; eexists; reflexivity | intros _; left; reflexivity].
    + rewrite <- IH. split; [intros [-> | H]; [contradiction | exact H] | auto].
Qed.

Lemma dl_lookup_elem day dl cs : dl_lookup day dl = Some cs -> (day, cs) ∈ dl.
Proof.
  induction dl as [| [d cs'] dl IH]; cbn; [discriminate |].
  destruct (Z.eqb_spec d day) as [-> | Hne].
  - intros [= ->]. left.
  - intros H. right. auto.
Qed.

(** A date keeps its place in the iteration order when a coordinate is
    added to it, and a new date goes last. *)
Lemma days_dl_append day c dl :
  days (dl_append day c dl)
  = if bool_decide (day ∈ days dl) then days dl else days dl ++ [day].
Proof.
  unfold days.
  induction dl as [| [d cs] dl IH]; cbn; [reflexivity |].
  destruct (Z.eqb_spec d day) as [-> | Hne]; cbn.
  - clear IH. case_bool_decide as Hin; [reflexivity |].
    exfalso. apply Hin. apply elem_of_cons. left. reflexivity.
  - rewrite IH. case_bool_decide as Hin; case_bool_decide as Hin';
      try reflexivity; exfalso.
    + apply Hin'. apply elem_of_cons. right. exact Hin.
    + apply elem_of_cons in Hin'. destruct Hin' as [-> | Hin']; contradiction.
Qed.

Lemma dl_append_nonempty day c dl :
  index_nonempty dl -> index_nonempty (dl_append day c dl).
Proof.
  unfold index_nonempty. induction 1 as [| [d cs] dl Hcs Hdl IH]; cbn.
  - constructor; [discriminate | constructor].
  - destruct (Z.eqb d day); constructor; cbn in *; auto.
    intros H. apply app_eq_nil in H. destruct H; discriminate.
Qed.

Lemma dd_getitem_indexed day dl :
  day ∈ days dl ->
  exists cs, dl_lookup day dl = Some cs /\ dd_getitem day dl = (cs, dl).
Proof.
  intros H. apply dl_lookup_days in H. destruct H as [cs H].
  exists cs. split; [exact H |]. unfold dd_getitem. rewrite H. reflexivity.
Qed.

(** What the search loop leaves in [(best_day, best_delta)]. *)
Lemma nearest_scan photo_date (ds : list Z) :
  ds <> [] ->
  exists (i : nat) best,
    fold_left (scan_day photo_date) ds (None, None)
    = (Some best, Some (day_distance best photo_date))
    /\ ds !! i = Some best
    /\ forall (j : nat) d, ds !! j = Some d ->
         day_distance best photo_date <= day_distance d photo_date
         /\ (day_distance d photo_date = day_distance best photo_date -> (i <= j)%nat).
Proof.
  induction ds as [| x pre IH] using rev_ind; [congruence |]. intros _.
  rewrite fold_left_app. cbn.
  destruct pre as [| p pre'].
  - exists 0%nat, x. cbn. split; [reflexivity |]. split; [reflexivity |].
    intros [| j] d Hd; cbn in Hd; [| discriminate].
    injection Hd as <-. split; [lia | lia].
  - destruct IH as (i & best & Hfold & Hi & Hmin); [discriminate |].
    rewrite Hfold. unfold scan_day; cbn [snd].
    fold (day_distance x photo_date).
    pose proof (lookup_lt_Some _ _ _ Hi) as Hlt.
    destruct (Z.ltb_spec (day_distance x photo_date) (day_distance best photo_date))
      as [Hless | Hge].
    + exists (length (p :: pre')), x. split; [reflexivity |].
      split; [apply list_lookup_middle; reflexivity |].
      intros j d Hd.
      destruct (decide (j < length (p :: pre'))%nat) as [Hj | Hj].
      * rewrite lookup_app_l in Hd by exact Hj.
        destruct (Hmin j d Hd) as [Hle _]. split; lia.
      * split; [| lia].
        rewrite lookup_app_r in Hd by lia.
        destruct (j - length (p :: pre'))%nat as [| k]; cbn in Hd; [| discriminate].
        injection Hd as <-. lia.
    + exists i, best. split; [reflexivity |].
      split; [rewrite lookup_app_l by exact Hlt; exact Hi |].
      intros j d Hd.
      destruct (decide (j < length (p :: pre'))%nat) as [Hj | Hj].
      * rewrite lookup_app_l in Hd by exact Hj. exact (Hmin j d Hd).
      * rewrite lookup_app_r in Hd by lia.
        destruct (j - length (p :: pre'))%nat as [| k] eqn:Ek; cbn in Hd;
          [| discriminate].
        injection Hd as <-. split; lia.
Qed.

(** C2. On a non-empty index the search selects an indexed day at the
    smallest distance from the target, and among the days at that distance
    the one that comes first in the iteration order, which is the order of
    first insertion: adding to a known day keeps the order and a new day
    goes last.  With the later day inserted first the later day wins a tie,
    with the earlier day inserted first the earlier one does. *)
Theorem nearest_day_first_minimal photo_date (dl : day_index) :
  dl <> [] ->
  (exists (i : nat) best,
     nearest_day photo_date dl = (Some best, Some (day_distance best photo_date))
     /\ days dl !! i = Some best
     /\ (forall d, d ∈ days dl ->
           day_distance best photo_date <= day_distance d photo_date)
     /\ (forall (j : nat) d, days dl !! j = Some d ->
           day_distance d photo_date = day_distance best photo_date -> (i <= j)%nat))
  /\ (forall day c,
        days (dl_append day c dl)
        = if bool_decide (day ∈ days dl) then days dl else days dl ++ [day])
  /\ (forall c1 c2,
        nearest_day photo_date
          (dl_append (photo_date - 1) c2 (dl_append (photo_date + 1) c1 []))
        = (Some (photo_date + 1), Some 1))
  /\ (forall c1 c2,
        nearest_day photo_date
          (dl_append (photo_date + 1) c2 (dl_append (photo_date - 1) c1 []))
        = (Some (photo_date - 1), Some 1)).
Proof.
  intros Hne. split; [| split; [| split]].
  - destruct (nearest_scan photo_date (days dl)) as (i & best & Hfold & Hi & Hmin).
    { destruct dl; [congruence | discriminate]. }
    exists i, best. split; [exact Hfold |]. split; [exact Hi |]. split.
    + intros d Hd. apply list_elem_of_lookup in Hd. destruct Hd as [j Hj].
      exact (proj1 (Hmin j d Hj)).
    + intros j d Hj. exact (proj2 (Hmin j d Hj)).
  - intros day c. apply days_dl_append.
  - intros c1 c2. cbn.
    destruct (Z.eqb_spec (photo_date + 1) (photo_date - 1)) as [E | _]; [lia |].
    unfold nearest_day, scan_day. cbn.
    replace (Z.abs (photo_date + 1 - photo_date)) with 1 by lia.
    replace (Z.abs (photo_date - 1 - photo_date)) with 1 by lia.
    reflexivity.
  - intros c1 c2. cbn.
    destruct (Z.eqb_spec (photo_date - 1) (photo_date + 1)) as [E | _]; [lia |].
    unfold nearest_day, scan_day. cbn.
    replace (Z.abs (photo_date + 1 - photo_date)) with 1 by lia.
    replace (Z.abs (photo_date - 1 - photo_date)) with 1 by lia.
    reflexivity.
Qed.

Lemma mean6_nonempty {compensated} xs :
  xs <> [] -> mean6 compensated xs = Ok (rounded_mean compensated xs).
Proof. destruct xs; [congruence | reflexivity]. Qed.

Lemma average_coordinate_nonempty {compensated} coords :
  coords <> [] ->
  average_coordinate compensated coords
  = Ok (rounded_mean compensated (map fst coords),
        rounded_mean compensated (map snd coords)).
Proof.
  intros Hne. unfold average_coordinate.
  rewrite !mean6_nonempty by (destruct coords; [congruence | discriminate]).
  reflexivity.
Qed.

Lemma index_nonempty_lookup dl day coords :
  index_nonempty dl -> dl_lookup day dl = Some coords -> coords <> [].
Proof.
  intros Hwf Hlook. apply dl_lookup_elem in Hlook.
  unfold index_nonempty in Hwf. rewrite Forall_forall in Hwf.
  exact (Hwf _ Hlook).
Qed.

Lemma round_half_even_nonneg num den : 0 <= num -> 0 < den -> 0 <= round_half_even num den.
Proof.
  intros Hnum Hden. unfold round_half_even.
  pose proof (Z.div_pos num den Hnum Hden).
  destruct (2 * (num mod den) ?= den); [destruct (Z.even (num / den)) | |]; lia.
Qed.

(** [round(x, 6)] does round to six decimals. *)
Lemma py_round6_rounds x : rounded_to_6_decimals x (py_round6 x).
Proof.
  unfold rounded_to_6_decimals, py_round6.
  destruct (Prim2SF x) as [s | s | | s m e]; try reflexivity.
  exists (micro_units m e). split.
  - unfold nearest_millionths, micro_units. destruct e as [| p | p].
    + split; [lia | reflexivity].
    + split; [| reflexivity]. pose proof (Z.pow_pos_nonneg 2 (Z.pos p)). lia.
    + assert (Hden : 0 < 2 ^ Z.pos p) by (apply Z.pow_pos_nonneg; lia).
      split; [apply round_half_even_nonneg; lia |].
      apply round_half_even_nearest. exact Hden.
  - unfold double_of_millionths. destruct (micro_units m e); reflexivity.
Qed.

(** C7. For a day of the index, whose list of coordinates is never empty,
    the average coordinate is the pair of the mean of all its latitudes
    and the mean of all its longitudes, each the interpreter's sum divided
    by the number of coordinates and each rounded to six decimals on its
    own: the double nearest to a six-place decimal nearest to the
    quotient.  (10, 20) and (12, 22) on one day average to (11, 21), for a
    photo of that day and for one two days later; (10, 20), (10, 20) and
    (10.000001, 20.000002) average to (10, 20.000001). *)
Theorem average_coordinate_is_mean compensated (dl : day_index) day coords :
  index_nonempty dl ->
  dl_lookup day dl = Some coords ->
  (exists avg_lat avg_lng,
     average_coordinate compensated coords = Ok (avg_lat, avg_lng)
     /\ avg_lat
        = py_round6 (py_sum compensated (map fst coords)
                     / float_of_len (length coords))%float
     /\ avg_lng
        = py_round6 (py_sum compensated (map snd coords)
                     / float_of_len (length coords))%float
     /\ rounded_to_6_decimals
          (py_sum compensated (map fst coords) / float_of_len (length coords))%float
          avg_lat
     /\ rounded_to_6_decimals
          (py_sum compensated (map snd coords) / float_of_len (length coords))%float
          avg_lng)
  /\ average_coordinate compensated [(10, 20)%float; (12, 22)%float]
     = Ok (11, 21)%float
  /\ average_coordinate compensated three_fixes = Ok (10, 20.000001)%float
  /\ infer_location utc_date compensated (january 1) new_year_index
     = (Ok (Some (11%float, 21%float, 0)), new_year_index)
  /\ infer_location utc_date compensated (january 3) new_year_index
     = (Ok (Some (11%float, 21%float, 2)), new_year_index).
Proof.
  intros Hwf Hlook.
  split; [| destruct compensated; repeat split; vm_compute; reflexivity].
  eexists _, _.
  split; [exact (average_coordinate_nonempty coords
                   (index_nonempty_lookup _ _ _ Hwf Hlook)) |].
  unfold rounded_mean. rewrite !length_map.
  split; [reflexivity |]. split; [reflexivity |].
  split; apply py_round6_rounds.
Qed.

(** The mean depends on how the interpreter sums: the four latitudes
    average to 75.617958 with plain additions and to 75.617959 with the
    compensated sum. *)
Lemma mean_depends_on_the_sum :
  mean6 false four_latitudes = Ok 75.617958%float
  /\ mean6 true four_latitudes = Ok 75.617959%float.
Proof. split; vm_compute; reflexivity. Qed.

Section EngineFacts.

Variable local_date : Z -> Z.
Variable compensated_sum : bool.
Variable HEIC_SUPPORT : bool.
Variable float_of_str : string -> option float.

Local Abbreviation average_coordinate := (average_coordinate compensated_sum).
Local Abbreviation rounded_mean := (rounded_mean compensated_sum).
Local Abbreviation infer_location := (infer_location local_date compensated_sum).
Local Abbreviation pass1_step := (pass1_step local_date HEIC_SUPPORT float_of_str).
Local Abbreviation pass2_step := (pass2_step local_date compensated_sum).
Local Abbreviation pass1 := (pass1 local_date HEIC_SUPPORT float_of_str).
Local Abbreviation pass2 := (pass2 local_date compensated_sum).
Local Abbreviation scan_run := (scan_run local_date compensated_sum HEIC_SUPPORT float_of_str).
Local Abbreviation scan_images := (scan_images local_date compensated_sum HEIC_SUPPORT float_of_str).
Local Abbreviation decodes := (decodes HEIC_SUPPORT float_of_str).
Local Abbreviation usable_record := (usable_record HEIC_SUPPORT).
Local Abbreviation exact_record := (exact_record HEIC_SUPPORT float_of_str).
Local Abbreviation pending_record := (pending_record HEIC_SUPPORT float_of_str).
Local Abbreviation inferred_record := (inferred_record local_date compensated_sum).
Local Abbreviation unresolved := (unresolved local_date compensated_sum).
Local Abbreviation index_of := (index_of local_date).
Local Abbreviation index_add := (index_add local_date).
Local Abbreviation with_exact := (with_exact local_date).
Local Abbreviation scan_outcome := (scan_outcome local_date compensated_sum HEIC_SUPPORT float_of_str).

(** What [infer_location] returns on an index with a day in it. *)
Lemma infer_location_indexed ts (dl : day_index) :
  dl <> [] ->
  exists (i : nat) best cs,
    days dl !! i = Some best
    /\ (forall (j : nat) d, days dl !! j = Some d ->
          day_distance best (local_date ts) <= day_distance d (local_date ts)
          /\ (day_distance d (local_date ts) = day_distance best (local_date ts)
              -> (i <= j)%nat))
    /\ dl_lookup best dl = Some cs
    /\ infer_location ts dl
       = (if 3 <? day_distance best (local_date ts) then Ok None
          else c ← average_coordinate cs;
               Ok (Some (fst c, snd c, day_distance best (local_date ts))),
          dl).
Proof.
  intros Hne.
  destruct (nearest_scan (local_date ts) (days dl)) as (i & best & Hfold & Hi & Hmin).
  { destruct dl; [congruence | discriminate]. }
  assert (Hin : best ∈ days dl) by (apply list_elem_of_lookup; eauto).
  destruct (dd_getitem_indexed best dl Hin) as (cs & Hlook & Hget).
  exists i, best, cs. split; [exact Hi |]. split; [exact Hmin |].
  split; [exact Hlook |].
  unfold infer_location.
  destruct dl as [| item dl']; [congruence |].
  unfold nearest_day. rewrite Hfold.
  destruct (3 <? day_distance best (local_date ts)); [reflexivity |].
  rewrite Hget. reflexivity.
Qed.

(** The call never changes the index. *)
Lemma infer_location_reads ts (dl : day_index) : snd (infer_location ts dl) = dl.
Proof.
  destruct dl as [| item dl'] eqn:E; [reflexivity |]. rewrite <- E.
  destruct (infer_location_indexed ts dl) as (i & best & cs & _ & _ & _ & Heq).
  { rewrite E. discriminate. }
  rewrite Heq. reflexivity.
Qed.

(** On an index without empty days the call returns. *)
Lemma infer_location_returns ts (dl : day_index) :
  index_nonempty dl -> returns (fst (infer_location ts dl)).
Proof.
  intros Hwf. destruct dl as [| item dl'] eqn:E; [eexists; reflexivity |].
  rewrite <- E in *.
  destruct (infer_location_indexed ts dl) as (i & best & cs & _ & _ & Hlook & Heq).
  { rewrite E. discriminate. }
  rewrite Heq. cbn [fst].
  destruct (3 <? day_distance best (local_date ts)); [eexists; reflexivity |].
  rewrite (average_coordinate_nonempty cs (index_nonempty_lookup _ _ _ Hwf Hlook)).
  eexists; reflexivity.
Qed.

(** The two ways a round of the second loop can end. *)
Lemma pass2_step_cases st e :
  match fst (infer_location (timestamp e) (day_locations st)) with
  | Ok (Some (la, ln, _)) => pass2_step st e = Ok (with_inferred st e (la, ln))
  | Ok None => pass2_step st e = Ok (with_unresolved st)
  | Raise x => pass2_step st e = Raise x
  end.
Proof.
  pose proof (infer_location_reads (timestamp e) (day_locations st)) as Hdl.
  unfold pass2_step.
  destruct (infer_location (timestamp e) (day_locations st)) as [r dl].
  cbn in Hdl. subst dl. cbn [fst].
  destruct r as [[[[la ln] delta] |] | x]; reflexivity.
Qed.



(* ===================================================================== *)
(** ** The two passes *)
(* ===================================================================== *)

Lemma exact_record_shape f x :
  exact_record f = Some x ->
  exists e la ln,
    usable_record f = Some e
    /\ get_gps_info float_of_str (GPSInfo f) = Ok (Some la, Some ln)
    /\ x = located e la ln false.
Proof.
  unfold exact_record. destruct (usable_record f) as [e |]; cbn; [| discriminate].
  destruct (get_gps_info float_of_str (GPSInfo f)) as [[[la |] [ln |]] | err];
    try discriminate.
  intros [= <-]. eauto 6.
Qed.

Lemma exact_records_exact files : Forall (fun x => is_exact x = true) (omap exact_record files).
Proof.
  apply Forall_forall. intros x Hx. apply list_elem_of_omap in Hx.
  destruct Hx as (f & _ & Hf). apply exact_record_shape in Hf.
  destruct Hf as (e & la & ln & _ & _ & ->). reflexivity.
Qed.

Lemma inferred_records_inferred dl pend :
  Forall (fun x => is_inferred x = true) (omap (inferred_record dl) pend).
Proof.
  apply Forall_forall. intros x Hx. apply list_elem_of_omap in Hx.
  destruct Hx as (e & _ & He). unfold inferred_record in He.
  destruct (fst (infer_location (timestamp e) dl)) as [[[[la ln] delta] |] | err];
    try discriminate.
  injection He as <-. reflexivity.
Qed.

(** A round of the first loop on a file whose GPS block decodes. *)
Lemma pass1_step_decoded st f :
  decodes f ->
  pass1_step st f
  = Ok match exact_record f, pending_record f with
       | Some x, _ => with_exact st x
       | None, Some p => with_pending st p
       | None, None => st
       end.
Proof.
  intros Hdec.
  unfold pass1_step, exact_record, pending_record, usable_record, decodes in *.
  destruct (is_heic f && negb HEIC_SUPPORT) eqn:Hskip; [reflexivity |].
  destruct Hdec as [Hdec | [gps Hgps]]; [discriminate |].
  rewrite Hgps. cbn.
  destruct (date_taken f) as [ts |]; cbn; [| reflexivity].
  destruct (if is_heic f then converted f else Some (file_path f)) as [sp |]; cbn;
    [| reflexivity].
  destruct gps as [[la |] [ln |]]; reflexivity.
Qed.

Lemma pass1_step_returns_decodes st f st' :
  pass1_step st f = Ok st' -> decodes f.
Proof.
  unfold pass1_step, decodes.
  destruct (is_heic f && negb HEIC_SUPPORT); [left; reflexivity |].
  destruct (get_gps_info float_of_str (GPSInfo f)) as [gps | err]; cbn;
    [right; eexists; reflexivity | discriminate].
Qed.

Lemma scan_vars_eta st :
  {| geotagged := geotagged st; no_gps := no_gps st;
     day_locations := day_locations st;
     inferred_count := inferred_count st; still_missing := still_missing st |} = st.
Proof. destruct st; reflexivity. Qed.

(** The first loop, from any state. *)
Lemma pass1_from st files :
  Forall decodes files ->
  for_each pass1_step st files
  = Ok {| geotagged := geotagged st ++ omap exact_record files;
          no_gps := no_gps st ++ omap pending_record files;
          day_locations := fold_left index_add (omap exact_record files) (day_locations st);
          inferred_count := inferred_count st;
          still_missing := still_missing st |}.
Proof.
  intros Hall. revert st.
  induction Hall as [| f files Hf Hfiles IH]; intros st; cbn [for_each omap list_omap].
  - cbn. rewrite !app_nil_r. rewrite scan_vars_eta. reflexivity.
  - rewrite (pass1_step_decoded st f Hf). cbn [mbind result_bind].
    rewrite IH. f_equal.
    destruct (exact_record f) as [x |] eqn:Ex.
    + assert (Hp : pending_record f = None).
      { apply exact_record_shape in Ex. destruct Ex as (e & la & ln & He & Hg & _).
        unfold pending_record. rewrite He, Hg. reflexivity. }
      rewrite Hp. cbn. rewrite <- app_assoc. reflexivity.
    + destruct (pending_record f) as [p |]; cbn; [| reflexivity].
      rewrite <- app_assoc. reflexivity.
Qed.

Lemma index_add_nonempty dl x : index_nonempty dl -> index_nonempty (index_add dl x).
Proof.
  intros Hwf. unfold index_add.
  destruct (lat x), (lng x); auto using dl_append_nonempty.
Qed.

Lemma index_from_nonempty es dl :
  index_nonempty dl -> index_nonempty (fold_left index_add es dl).
Proof.
  revert dl. induction es as [| x es IH]; intros dl Hwf; cbn; [exact Hwf |].
  apply IH, index_add_nonempty, Hwf.
Qed.

(** The second loop, from any state whose index has no empty day. *)
Lemma pass2_from st pend :
  index_nonempty (day_locations st) ->
  for_each pass2_step st pend
  = Ok {| geotagged := geotagged st ++ omap (inferred_record (day_locations st)) pend;
          no_gps := no_gps st;
          day_locations := day_locations st;
          inferred_count :=
            inferred_count st + length (omap (inferred_record (day_locations st)) pend);
          still_missing :=
            still_missing st + length (List.filter (unresolved (day_locations st)) pend) |}.
Proof.
  revert st. induction pend as [| e pend IH]; intros st Hwf; cbn [for_each].
  - cbn. rewrite app_nil_r, !Nat.add_0_r, scan_vars_eta. reflexivity.
  - pose proof (pass2_step_cases st e) as Hcases.
    destruct (infer_location_returns (timestamp e) (day_locations st) Hwf) as [r Hr].
    assert (Hi : inferred_record (day_locations st) e
                 = match r with
                   | Some (la, ln, _) => Some (located e la ln true)
                   | None => None
                   end)
      by (unfold inferred_record; rewrite Hr; reflexivity).
    assert (Hu : unresolved (day_locations st) e
                 = match r with Some _ => false | None => true end)
      by (unfold unresolved; rewrite Hr; reflexivity).
    rewrite Hr in Hcases. cbn [omap list_omap List.filter]. rewrite Hi, Hu.
    destruct r as [[[la ln] delta] |]; rewrite Hcases; cbn [mbind result_bind];
      rewrite IH by exact Hwf; cbn; f_equal; f_equal;
      try (rewrite <- app_assoc; reflexivity); lia.
Qed.

(** The whole run, when no GPS block makes it raise. *)
Lemma scan_run_outcome files :
  Forall decodes files ->
  pass1 files = Ok {| geotagged := omap exact_record files;
                      no_gps := omap pending_record files;
                      day_locations := index_of (omap exact_record files);
                      inferred_count := 0; still_missing := 0 |}
  /\ scan_run files = Ok (scan_outcome files).
Proof.
  intros Hall.
  assert (H1 : pass1 files
               = Ok {| geotagged := omap exact_record files;
                       no_gps := omap pending_record files;
                       day_locations := index_of (omap exact_record files);
                       inferred_count := 0; still_missing := 0 |}).
  { unfold pass1. rewrite (pass1_from scan_init files Hall). reflexivity. }
  split; [exact H1 |].
  unfold scan_run. rewrite H1. cbn [mbind result_bind]. unfold pass2.
  rewrite pass2_from.
  - reflexivity.
  - cbn. apply index_from_nonempty. constructor.
Qed.

(** The run returns exactly when every file decodes. *)
Lemma scan_run_returns files : returns (scan_run files) <-> Forall decodes files.
Proof.
  split.
  - intros [st Hst]. unfold scan_run in Hst.
    destruct (pass1 files) as [st1 | err] eqn:H1; [| discriminate]. clear Hst.
    unfold pass1 in H1. revert H1. generalize scan_init.
    induction files as [| f files IH]; intros st0 H1; [constructor |].
    cbn in H1. destruct (pass1_step st0 f) as [st' |] eqn:Hf; [| discriminate].
    constructor; [exact (pass1_step_returns_decodes _ _ _ Hf) | exact (IH _ H1)].
  - intros Hall. eexists. exact (proj2 (scan_run_outcome files Hall)).
Qed.

Lemma dl_lookup_dl_append day d c dl :
  dl_lookup day (dl_append d c dl)
  = if Z.eqb d day then Some (default [] (dl_lookup day dl) ++ [c])
    else dl_lookup day dl.
Proof.
  induction dl as [| [d' cs] dl IH]; cbn.
  - destruct (Z.eqb d day); reflexivity.
  - destruct (Z.eqb_spec d' d) as [-> | Hne]; cbn.
    + destruct (Z.eqb d day); reflexivity.
    + rewrite IH. destruct (Z.eqb_spec d' day) as [-> | Hne'].
      * destruct (Z.eqb_spec d day); [congruence | reflexivity].
      * reflexivity.
Qed.

(** Where a coordinate of the index comes from. *)
Lemma index_provenance es dl0 day cs (c : coord) :
  dl_lookup day (fold_left index_add es dl0) = Some cs ->
  c ∈ cs ->
  (exists cs0, dl_lookup day dl0 = Some cs0 /\ c ∈ cs0)
  \/ (exists x, x ∈ es /\ lat x = Some (fst c) /\ lng x = Some (snd c)
                /\ local_date (timestamp x) = day).
Proof.
  revert dl0. induction es as [| x es IH]; intros dl0 Hlook Hc; cbn in Hlook.
  - left. eauto.
  - destruct (IH _ Hlook Hc) as [(cs0 & Hlook0 & Hc0) | (y & Hy & Hrest)].
    + unfold index_add in Hlook0.
      destruct (lat x) as [la |] eqn:Hla; [| left; eauto].
      destruct (lng x) as [ln |] eqn:Hln; [| left; eauto].
      rewrite dl_lookup_dl_append in Hlook0.
      destruct (Z.eqb_spec (local_date (timestamp x)) day) as [Hday | Hday];
        [| left; eauto].
      injection Hlook0 as <-. apply elem_of_app in Hc0.
      destruct Hc0 as [Hold | Hnew].
      * left. destruct (dl_lookup day dl0) as [cs1 |]; cbn in Hold;
          [eauto | inversion Hold].
      * apply list_elem_of_singleton in Hnew. subst c.
        right. exists x. split; [left |]. cbn. auto.
    + right. exists y. split; [right; exact Hy | exact Hrest].
Qed.

Lemma filter_all {A} (p : A -> bool) l :
  Forall (fun x => p x = true) l -> List.filter p l = l.
Proof.
  induction 1 as [| x l Hx Hl IH]; cbn; [reflexivity |].
  rewrite Hx, IH. reflexivity.
Qed.

Lemma filter_none {A} (p : A -> bool) l :
  Forall (fun x => p x = false) l -> List.filter p l = [].
Proof.
  induction 1 as [| x l Hx Hl IH]; cbn; [reflexivity |].
  rewrite Hx, IH. reflexivity.
Qed.

Lemma inferred_not_exact x : is_inferred x = true -> is_exact x = false.
Proof. unfold is_inferred, is_exact. destruct (approximate x) as [[|] |]; congruence. Qed.

Lemma exact_not_inferred x : is_exact x = true -> is_inferred x = false.
Proof. unfold is_inferred, is_exact. destruct (approximate x) as [[|] |]; congruence. Qed.

Lemma filter_exact_output files dl pend :
  List.filter is_exact (omap exact_record files ++ omap (inferred_record dl) pend)
  = omap exact_record files.
Proof.
  rewrite List.filter_app, (filter_all _ _ (exact_records_exact files)).
  rewrite filter_none; [apply app_nil_r |].
  eapply Forall_impl; [apply inferred_records_inferred |].
  intros x. apply inferred_not_exact.
Qed.

Lemma filter_inferred_output files dl pend :
  List.filter is_inferred (omap exact_record files ++ omap (inferred_record dl) pend)
  = omap (inferred_record dl) pend.
Proof.
  rewrite List.filter_app, (filter_all _ _ (inferred_records_inferred dl pend)).
  rewrite filter_none; [reflexivity |].
  eapply Forall_impl; [apply exact_records_exact |].
  intros x. apply exact_not_inferred.
Qed.

(** C5. When no GPS block makes the run raise, both passes complete and
    the index after the second pass is the index the first pass built: the
    index of the records emitted with [approximate] false, so that each of
    its coordinates is the coordinate of such a record, under the day of
    its timestamp.  No round of the second loop changes the index. *)
Theorem index_frozen_after_pass1 files :
  Forall decodes files ->
  exists st1 st2,
    pass1 files = Ok st1
    /\ pass2 st1 = Ok st2
    /\ scan_run files = Ok st2
    /\ day_locations st2 = day_locations st1
    /\ day_locations st2 = index_of (List.filter is_exact (geotagged st2))
    /\ (forall day cs (c : coord),
          dl_lookup day (day_locations st2) = Some cs -> c ∈ cs ->
          exists x, x ∈ geotagged st2 /\ approximate x = Some false
                    /\ lat x = Some (fst c) /\ lng x = Some (snd c)
                    /\ local_date (timestamp x) = day)
    /\ (forall st e st', pass2_step st e = Ok st' ->
          day_locations st' = day_locations st).
Proof.
  intros Hall. destruct (scan_run_outcome files Hall) as [H1 Hrun].
  eexists _, (scan_outcome files). split; [exact H1 |].
  assert (H2 : scan_run files = Ok (scan_outcome files)) by exact Hrun.
  unfold scan_run in Hrun. rewrite H1 in Hrun. cbn [mbind result_bind] in Hrun.
  split; [exact Hrun |]. split; [exact H2 |]. split; [reflexivity |].
  split; [| split].
  - cbn. rewrite filter_exact_output. reflexivity.
  - intros day cs c Hlook Hc. cbn in Hlook.
    destruct (index_provenance _ _ _ _ _ Hlook Hc)
      as [(cs0 & Hl0 & _) | (x & Hx & Hla & Hln & Hday)]; [discriminate |].
    exists x. split; [cbn; apply elem_of_app; left; exact Hx |].
    split; [| auto].
    pose proof (exact_records_exact files) as Hex. rewrite Forall_forall in Hex.
    specialize (Hex x Hx). unfold is_exact in Hex.
    destruct (approximate x) as [[|] |]; congruence.
  - intros st e st' Hstep. pose proof (pass2_step_cases st e) as Hcases.
    destruct (fst (infer_location (timestamp e) (day_locations st)))
      as [[[[la ln] delta] |] | err]; rewrite Hcases in Hstep;
      [| | discriminate]; injection Hstep as <-; reflexivity.
Qed.

(** C6. When no GPS block makes the run raise, the returned list is the
    records of the files that carry a coordinate, all exact and in the order
    of the files, followed by the records inference found, all approximate
    and in the order of the pending pool, which is the order of the files
    among those without a coordinate. *)
Theorem output_exact_then_inferred files :
  Forall decodes files ->
  exists st,
    scan_run files = Ok st
    /\ scan_images (Some files) = Ok (geotagged st)
    /\ no_gps st = omap pending_record files
    /\ geotagged st
       = omap exact_record files
         ++ omap (inferred_record (day_locations st)) (no_gps st)
    /\ Forall (fun x => approximate x = Some false) (omap exact_record files)
    /\ Forall (fun x => approximate x = Some true)
         (omap (inferred_record (day_locations st)) (no_gps st)).
Proof.
  intros Hall. destruct (scan_run_outcome files Hall) as [_ Hrun].
  exists (scan_outcome files). split; [exact Hrun |].
  split; [unfold scan_images; rewrite Hrun; reflexivity |].
  split; [reflexivity |]. split; [reflexivity |]. split.
  - eapply Forall_impl; [apply exact_records_exact |].
    intros x. unfold is_exact. destruct (approximate x) as [[|] |]; congruence.
  - eapply Forall_impl; [apply inferred_records_inferred |].
    intros x. unfold is_inferred. destruct (approximate x) as [[|] |]; congruence.
Qed.

(** C9. When no GPS block makes the run raise, the printed summary is the
    number of returned records with [approximate] false, the number with
    [approximate] true, and the number of pending records for which
    inference produced nothing; the first two add up to the length of the
    returned list. *)
Theorem summary_counts files :
  Forall decodes files ->
  exists st,
    scan_run files = Ok st
    /\ summary st
       = (Z.of_nat (length (List.filter is_exact (geotagged st))),
          Z.of_nat (length (List.filter is_inferred (geotagged st))),
          Z.of_nat (length (List.filter (unresolved (day_locations st)) (no_gps st))))
    /\ fst (fst (summary st)) + snd (fst (summary st))
       = Z.of_nat (length (geotagged st)).
Proof.
  intros Hall. destruct (scan_run_outcome files Hall) as [_ Hrun].
  exists (scan_outcome files). split; [exact Hrun |].
  unfold summary. cbn [fst snd]. split; [| lia].
  cbn [scan_outcome geotagged inferred_count still_missing day_locations no_gps].
  unfold scan_outcome; cbn [geotagged inferred_count still_missing day_locations no_gps].
  rewrite filter_exact_output, filter_inferred_output, length_app.
  repeat f_equal. lia.
Qed.

Lemma pass1_step_undated st f :
  date_taken f = None ->
  pass1_step st f = Ok st \/ exists err, pass1_step st f = Raise err.
Proof.
  intros Hdate. unfold pass1_step.
  destruct (is_heic f && negb HEIC_SUPPORT); [left; reflexivity |].
  destruct (get_gps_info float_of_str (GPSInfo f)) as [gps | err]; cbn.
  - rewrite Hdate. left; reflexivity.
  - right. eexists; reflexivity.
Qed.

(** A file the first loop steps over can be taken out of the collection. *)
Lemma stepped_over_file f before after :
  (forall st, pass1_step st f = Ok st) ->
  scan_run (before ++ f :: after) = scan_run (before ++ after).
Proof.
  intros Hskip. unfold scan_run, pass1. rewrite !for_each_app.
  destruct (for_each pass1_step scan_init before) as [st |]; [| reflexivity].
  cbn. rewrite Hskip. reflexivity.
Qed.

(** C8. A file with no capture time leaves every variable of the run as it
    was: it makes no record with or without a coordinate, whatever its GPS
    block holds, and a run with the file has the output, the pending pool,
    the index and the counters of the run without it. *)
Theorem undated_record_excluded f :
  date_taken f = None ->
  (forall st st', pass1_step st f = Ok st' -> st' = st)
  /\ exact_record f = None
  /\ pending_record f = None
  /\ (decodes f -> forall st, pass1_step st f = Ok st)
  /\ (decodes f -> forall before after,
        scan_run (before ++ f :: after) = scan_run (before ++ after))
  /\ (forall before after st,
        scan_run (before ++ f :: after) = Ok st ->
        scan_run (before ++ after) = Ok st).
Proof.
  intros Hdate.
  assert (Hex : exact_record f = None).
  { unfold exact_record, usable_record. rewrite Hdate.
    destruct (is_heic f && negb HEIC_SUPPORT); reflexivity. }
  assert (Hpe : pending_record f = None).
  { unfold pending_record, usable_record. rewrite Hdate.
    destruct (is_heic f && negb HEIC_SUPPORT); reflexivity. }
  assert (Hstep : decodes f -> forall st, pass1_step st f = Ok st).
  { intros Hdec st. rewrite (pass1_step_decoded st f Hdec), Hex, Hpe. reflexivity. }
  split.
  { intros st st' Hst.
    destruct (pass1_step_undated st f Hdate) as [H | [err H]];
      rewrite H in Hst; [congruence | discriminate]. }
  split; [exact Hex |]. split; [exact Hpe |]. split; [exact Hstep |]. split.
  - intros Hdec before after. apply stepped_over_file. exact (Hstep Hdec).
  - intros before after st. unfold scan_run, pass1. rewrite !for_each_app.
    destruct (for_each pass1_step scan_init before) as [s1 |]; [| discriminate].
    cbn. destruct (pass1_step_undated s1 f Hdate) as [H | [err H]]; rewrite H; cbn;
      [auto | discriminate].
Qed.

Lemma failed_conversion_step st f :
  is_heic f = true -> converted f = None ->
  returns (get_gps_info float_of_str (GPSInfo f)) ->
  pass1_step st f = Ok st.
Proof.
  intros Hheic Hconv [gps Hgps]. unfold pass1_step.
  destruct (is_heic f && negb HEIC_SUPPORT); [reflexivity |].
  rewrite Hgps. cbn. destruct (date_taken f); [| reflexivity].
  rewrite Hheic, Hconv. reflexivity.
Qed.

End EngineFacts.

(** C10. A HEIC file with a capture time and a coordinate of its own whose
    conversion fails leaves every variable of the run as it was: no record
    is emitted, and its coordinate does not reach the index.  A photo
    without a coordinate taken the next day is left unresolved when the
    conversion fails, and is given the coordinate when it succeeds. *)
Theorem failed_conversion_excluded local_date compensated_sum HEIC_SUPPORT float_of_str
    f ts la ln :
  is_heic f = true ->
  converted f = None ->
  date_taken f = Some ts ->
  get_gps_info float_of_str (GPSInfo f) = Ok (Some la, Some ln) ->
  (forall st,
     pass1_step local_date HEIC_SUPPORT float_of_str st f = Ok st)
  /\ (forall before after,
        scan_run local_date compensated_sum HEIC_SUPPORT float_of_str (before ++ f :: after)
        = scan_run local_date compensated_sum HEIC_SUPPORT float_of_str (before ++ after))
  /\ exact_record HEIC_SUPPORT float_of_str f = None
  /\ scan_run utc_date compensated_sum true no_numeric_str [iphone_photo None; scanned_photo]
     = Ok {| geotagged := [];
             no_gps := [pending_on "b.jpg" 2];
             day_locations := [];
             inferred_count := 0;
             still_missing := 1 |}
  /\ scan_images utc_date compensated_sum true no_numeric_str
       (Some [iphone_photo (Some "images/converted/a.jpg"%string); scanned_photo])
     = Ok [ {| filename := "a.heic"; path := "images/converted/a.jpg";
               timestamp := january 1; lat := Some 10%float;
               lng := Some 20%float; approximate := Some false |};
            located (pending_on "b.jpg" 2) 10 20 true ].
Proof.
  intros Hheic Hconv Hdate Hgps.
  assert (Hstep : forall st,
            pass1_step local_date HEIC_SUPPORT float_of_str st f = Ok st).
  { intros st. apply failed_conversion_step; [assumption .. |].
    eexists; exact Hgps. }
  split; [exact Hstep |].
  split; [intros before after; apply stepped_over_file; exact Hstep |].
  split; [| split; destruct compensated_sum; vm_compute; reflexivity].
  unfold exact_record, usable_record.
  destruct (is_heic f && negb HEIC_SUPPORT); [reflexivity |].
  rewrite Hdate, Hheic, Hconv. reflexivity.
Qed.

(* ===================================================================== *)
(** ** The examples of the design document, run *)
(* ===================================================================== *)

Lemma window_photos_decode : Forall (decodes true no_numeric_str) window_photos.
Proof.
  repeat (apply Forall_cons; split; [right; eexists; vm_compute; reflexivity |]).
  apply Forall_nil_2.
Defined.


Lemma nearest_day_first_minimal_witness :
  dl_append 738889 (1, 1)%float (dl_append 738891 (2, 2)%float []) <> []
  /\ nearest_day 738890 (dl_append 738889 (1, 1)%float (dl_append 738891 (2, 2)%float []))
     = (Some 738891, Some 1).
Proof.
  assert (Hne : dl_append 738889 (1, 1)%float (dl_append 738891 (2, 2)%float []) <> [])
    by discriminate.
  split; [exact Hne |].
  destruct (nearest_day_first_minimal 738890 _ Hne) as (_ & _ & Hlater & _).
  exact (Hlater (2, 2)%float (1, 1)%float).
Defined.

Lemma average_coordinate_is_mean_witness :
  index_nonempty new_year_index
  /\ dl_lookup 738886 new_year_index = Some [(10, 20)%float; (12, 22)%float]
  /\ average_coordinate true [(10, 20)%float; (12, 22)%float] = Ok (11, 21)%float.
Proof.
  assert (Hwf : index_nonempty new_year_index)
    by (repeat constructor; discriminate).
  assert (Hlook : dl_lookup 738886 new_year_index
                  = Some [(10, 20)%float; (12, 22)%float]) by reflexivity.
  split; [exact Hwf |]. split; [exact Hlook |].
  destruct (proj1 (average_coordinate_is_mean true new_year_index 738886 _ Hwf Hlook))
    as (avg_lat & avg_lng & Havg & Hlat & Hlng & _).
  rewrite Havg, Hlat, Hlng. vm_compute. reflexivity.
Defined.

Lemma index_frozen_after_pass1_witness :
  exists st1 st2,
    pass1 utc_date true no_numeric_str window_photos = Ok st1
    /\ pass2 utc_date false st1 = Ok st2
    /\ day_locations st1 = first_of_january
    /\ day_locations st2 = first_of_january.
Proof.
  destruct (index_frozen_after_pass1 utc_date false true no_numeric_str window_photos
              window_photos_decode)
    as (st1 & st2 & H1 & H2 & _ & Heq & _).
  exists st1, st2. split; [exact H1 |]. split; [exact H2 |].
  assert (Hdl : day_locations st1 = first_of_january).
  { vm_compute in H1. injection H1 as <-. reflexivity. }
  split; [exact Hdl |]. rewrite Heq. exact Hdl.
Defined.

Lemma output_exact_then_inferred_witness :
  exists st,
    scan_run utc_date false true no_numeric_str window_photos = Ok st
    /\ map filename (no_gps st) = ["c.jpg"; "b.jpg"]%string
    /\ map filename (geotagged st) = ["a.jpg"; "b.jpg"]%string
    /\ map approximate (geotagged st) = [Some false; Some true].
Proof.
  destruct (output_exact_then_inferred utc_date false true no_numeric_str window_photos
              window_photos_decode)
    as (st & Hrun & _ & Hpend & Hout & _).
  exists st. split; [exact Hrun |].
  rewrite Hout, Hpend.
  pose proof Hrun as Hst. vm_compute in Hst. injection Hst as Hst.
  rewrite <- Hst. repeat split; vm_compute; reflexivity.
Defined.

Lemma summary_counts_witness :
  exists st,
    scan_run utc_date false true no_numeric_str window_photos = Ok st
    /\ summary st = (1, 1, 1)
    /\ length (geotagged st) = 2%nat.
Proof.
  destruct (summary_counts utc_date false true no_numeric_str window_photos
              window_photos_decode)
    as (st & Hrun & Hsum & Htotal).
  exists st. split; [exact Hrun |].
  split; [rewrite Hsum |]; vm_compute in Hrun; injection Hrun as <-;
    vm_compute; reflexivity.
Defined.

Lemma undated_record_excluded_witness :
  date_taken undated_photo = None
  /\ get_gps_info no_numeric_str (GPSInfo undated_photo)
     = Ok (Some 10%float, Some 20%float)
  /\ scan_run utc_date false true no_numeric_str (window_photos ++ undated_photo :: [scanned_photo])
     = scan_run utc_date false true no_numeric_str (window_photos ++ [scanned_photo]).
Proof.
  split; [reflexivity |]. split; [vm_compute; reflexivity |].
  destruct (undated_record_excluded utc_date false true no_numeric_str undated_photo eq_refl)
    as (_ & _ & _ & _ & Hrun & _).
  apply Hrun. right. eexists. vm_compute. reflexivity.
Defined.

Lemma failed_conversion_excluded_witness :
  is_heic (iphone_photo None) = true
  /\ converted (iphone_photo None) = None
  /\ date_taken (iphone_photo None) = Some (january 1)
  /\ get_gps_info no_numeric_str (GPSInfo (iphone_photo None))
     = Ok (Some 10%float, Some 20%float)
  /\ scan_run utc_date false true no_numeric_str
       (window_photos ++ iphone_photo None :: [scanned_photo])
     = scan_run utc_date false true no_numeric_str (window_photos ++ [scanned_photo]).
Proof.
  assert (Hgps : get_gps_info no_numeric_str (GPSInfo (iphone_photo None))
                 = Ok (Some 10%float, Some 20%float)) by (vm_compute; reflexivity).
  split; [reflexivity |]. split; [reflexivity |]. split; [reflexivity |].
  split; [exact Hgps |].
  destruct (failed_conversion_excluded utc_date false true no_numeric_str
              (iphone_photo None) (january 1) 10%float 20%float
              eq_refl eq_refl eq_refl Hgps)
    as (_ & Hrun & _).
  apply Hrun.
Defined.

(* ===================================================================== *)
(** ** More on coordinate construction *)
(* ===================================================================== *)

Lemma SFopp_involutive sf : SFopp (SFopp sf) = sf.
Proof. destruct sf as [s | s | | s m e]; cbn; rewrite ?negb_involutive; reflexivity. Qed.

Lemma float_opp_involutive (x : float) : (- - x)%float = x.
Proof.
  apply Prim2SF_inj. rewrite !opp_spec. apply SFopp_involutive.
Qed.

Lemma SF2Prim_opp sf : SF2Prim (SFopp sf) = (- SF2Prim sf)%float.
Proof.
  destruct sf as [[|] | [|] | | [|] m e]; cbn [SFopp SF2Prim negb];
    try reflexivity.
  symmetry. apply float_opp_involutive.
Qed.

Lemma binary_round_aux_opp s m e l :
  binary_round_aux prec emax (negb s) m e l
  = SFopp (binary_round_aux prec emax s m e l).
Proof.
  unfold binary_round_aux.
  destruct (shr_fexp prec emax m e l) as [mrs' e'].
  destruct (shr_fexp prec emax _ e' loc_Exact) as [mrs'' e''].
  destruct (shr_m mrs'') as [| p | p]; [reflexivity | | reflexivity].
  destruct (e'' <=? emax - prec)%Z; reflexivity.
Qed.

Lemma SFdiv_opp_l s k :
  SFdiv prec emax (S754_finite (negb s) k 0) (S754_finite false 1000000 0)
  = SFopp (SFdiv prec emax (S754_finite s k 0) (S754_finite false 1000000 0)).
Proof.
  unfold SFdiv.
  destruct (SFdiv_core_binary prec emax (Z.pos k) 0 1000000 0) as [[mz ez] lz].
  rewrite !xorb_false_r. apply binary_round_aux_opp.
Qed.

(** [round(-x, 6)] is [-round(x, 6)]. *)
Lemma py_round6_opp x : py_round6 (- x)%float = (- py_round6 x)%float.
Proof.
  unfold py_round6. rewrite opp_spec.
  destruct (Prim2SF x) as [s | s | | s m e] eqn:E; cbn [SFopp]; try reflexivity.
  destruct (micro_units m e) as [| k | k].
  - apply (SF2Prim_opp (S754_zero s)).
  - rewrite SFdiv_opp_l. apply SF2Prim_opp.
  - apply (SF2Prim_opp (S754_zero s)).
Qed.

Section GpsMore.

Variable float_of_str : string -> option float.

Local Abbreviation py_float := (py_float float_of_str).
Local Abbreviation dms_to_decimal := (dms_to_decimal float_of_str).
Local Abbreviation get_gps_info := (get_gps_info float_of_str).

(** The conversion, with the reference taken out. *)
Lemma dms_to_decimal_factor dms ref :
  dms_to_decimal dms ref
  = (d0 ← py_getitem dms 0; degrees ← py_float d0;
     d1 ← py_getitem dms 1; minutes ← py_float d1;
     d2 ← py_getitem dms 2; seconds ← py_float d2;
     Ok (py_round6 (signed_decimal degrees minutes seconds (ref_in_SW ref)))).
Proof. reflexivity. Qed.

(** The same DMS value under a southern or western reference is the exact
    negation of what it is under any other reference, after rounding too;
    and whether the conversion raises does not depend on the reference. *)
Theorem hemisphere_mirror dms ref ref' :
  (ref = VStr "S" \/ ref = VStr "W") ->
  ref' <> VStr "S" -> ref' <> VStr "W" ->
  (forall v, dms_to_decimal dms ref' = Ok v ->
             dms_to_decimal dms ref = Ok (- v)%float)
  /\ (forall e, dms_to_decimal dms ref' = Raise e <->
                dms_to_decimal dms ref = Raise e).
Proof.
  intros Href HS HW.
  apply ref_in_SW_true in Href.
  assert (Href' : ref_in_SW ref' = false).
  { destruct (ref_in_SW ref') eqn:E; [| reflexivity].
    apply ref_in_SW_true in E. destruct E; contradiction. }
  rewrite !dms_to_decimal_factor, Href, Href'.
  destruct (py_getitem dms 0) as [d0 | x]; cbn; [| split; [discriminate | tauto]].
  destruct (py_float d0) as [d | x]; cbn; [| split; [discriminate | tauto]].
  destruct (py_getitem dms 1) as [d1 | x]; cbn; [| split; [discriminate | tauto]].
  destruct (py_float d1) as [m | x]; cbn; [| split; [discriminate | tauto]].
  destruct (py_getitem dms 2) as [d2 | x]; cbn; [| split; [discriminate | tauto]].
  destruct (py_float d2) as [s | x]; cbn; [| split; [discriminate | tauto]].
  split.
  - intros v [= <-]. rewrite py_round6_opp. reflexivity.
  - intros e. split; discriminate.
Qed.

(** [get_gps_info] never returns half a coordinate: both parts are there
    or none is. *)
Theorem get_gps_info_all_or_nothing gps_raw a b :
  get_gps_info gps_raw = Ok (a, b) ->
  (a = None /\ b = None)
  \/ (exists la lar lo lor gps lat lng,
        gps_raw = Some gps
        /\ gps !! "GPSLatitude"%string = Some la
        /\ gps !! "GPSLatitudeRef"%string = Some lar
        /\ gps !! "GPSLongitude"%string = Some lo
        /\ gps !! "GPSLongitudeRef"%string = Some lor
        /\ dms_to_decimal la lar = Ok lat /\ dms_to_decimal lo lor = Ok lng
        /\ a = Some lat /\ b = Some lng).
Proof.
  unfold get_gps_info.
  destruct gps_raw as [gps |]; [| intros [= <- <-]; left; auto].
  destruct (bool_decide (size gps = 0%nat)); [intros [= <- <-]; left; auto |].
  unfold dict_getitem.
  destruct (gps !! "GPSLatitude"%string) as [la |] eqn:Hla; cbn;
    [| intros [= <- <-]; left; auto].
  destruct (gps !! "GPSLatitudeRef"%string) as [lar |] eqn:Hlar; cbn;
    [| intros [= <- <-]; left; auto].
  destruct (dms_to_decimal la lar) as [lat | x] eqn:Hlat; cbn.
  2: { destruct x; cbn; intros H; try discriminate;
       injection H as <- <-; left; auto. }
  destruct (gps !! "GPSLongitude"%string) as [lo |] eqn:Hlo; cbn;
    [| intros [= <- <-]; left; auto].
  destruct (gps !! "GPSLongitudeRef"%string) as [lor |] eqn:Hlor; cbn;
    [| intros [= <- <-]; left; auto].
  destruct (dms_to_decimal lo lor) as [lng | x] eqn:Hlng; cbn.
  2: { destruct x; cbn; intros H; try discriminate;
       injection H as <- <-; left; auto. }
  intros [= <- <-]. right. exists la, lar, lo, lor, gps, lat, lng.
  repeat (split; [first [reflexivity | assumption] |]). reflexivity.
Qed.

End GpsMore.

Lemma hemisphere_mirror_witness :
  dms_to_decimal no_numeric_str (VTuple [VInt 33; VInt 51; VFloat 54.5]) (VStr "N")
  = Ok 33.865139%float
  /\ dms_to_decimal no_numeric_str (VTuple [VInt 33; VInt 51; VFloat 54.5]) (VStr "S")
     = Ok (PrimFloat.opp 33.865139%float).
Proof.
  assert (HN : dms_to_decimal no_numeric_str
                 (VTuple [VInt 33; VInt 51; VFloat 54.5]) (VStr "N")
               = Ok 33.865139%float) by (vm_compute; reflexivity).
  split; [exact HN |].
  apply (proj1 (hemisphere_mirror no_numeric_str
                  (VTuple [VInt 33; VInt 51; VFloat 54.5]) (VStr "S") (VStr "N")
                  (or_introl eq_refl) ltac:(discriminate) ltac:(discriminate))).
  exact HN.
Defined.

Lemma get_gps_info_all_or_nothing_witness :
  get_gps_info no_numeric_str (Some gps_none_seconds) = Ok (None, None)
  /\ ((@None float = None /\ @None float = None)
      \/ exists la lar lo lor gps lat lng,
           Some gps_none_seconds = Some gps
           /\ gps !! "GPSLatitude"%string = Some la
           /\ gps !! "GPSLatitudeRef"%string = Some lar
           /\ gps !! "GPSLongitude"%string = Some lo
           /\ gps !! "GPSLongitudeRef"%string = Some lor
           /\ dms_to_decimal no_numeric_str la lar = Ok lat
           /\ dms_to_decimal no_numeric_str lo lor = Ok lng
           /\ @None float = Some lat /\ @None float = Some lng).
Proof.
  assert (H : get_gps_info no_numeric_str (Some gps_none_seconds) = Ok (None, None))
    by (vm_compute; reflexivity).
  split; [exact H |].
  exact (get_gps_info_all_or_nothing no_numeric_str _ _ _ H).
Defined.

(* ===================================================================== *)
(** ** More on the index and on inference *)
(* ===================================================================== *)

Lemma index_size_dl_append day c dl :
  index_size (dl_append day c dl) = S (index_size dl).
Proof.
  unfold index_size.
  induction dl as [| [d cs] dl IH]; cbn; [reflexivity |].
  destruct (Z.eqb d day); cbn.
  - rewrite length_app. cbn. lia.
  - rewrite IH. lia.
Qed.

Lemma days_dl_append_NoDup day c dl :
  NoDup (days dl) -> NoDup (days (dl_append day c dl)).
Proof.
  intros Hnd. rewrite days_dl_append. case_bool_decide as Hin; [exact Hnd |].
  apply NoDup_app. split; [exact Hnd |]. split.
  - intros d Hd Hd'. apply list_elem_of_singleton in Hd'. subst d. contradiction.
  - apply NoDup_singleton.
Qed.

Lemma days_dl_append_incl day c dl d : d ∈ days dl -> d ∈ days (dl_append day c dl).
Proof.
  intros Hd. rewrite days_dl_append. case_bool_decide; [exact Hd |].
  apply elem_of_app. left. exact Hd.
Qed.

(** Appending a coordinate to a day and reading the index back: the day
    holds what it held, in order, with the coordinate last; the other days
    hold what they held; the dates stay distinct; the index has one
    coordinate more. *)
Theorem index_append_lookup day (c : coord) (dl : day_index) :
  dl_lookup day (dl_append day c dl) = Some (default [] (dl_lookup day dl) ++ [c])
  /\ (forall other, other <> day ->
        dl_lookup other (dl_append day c dl) = dl_lookup other dl)
  /\ (NoDup (days dl) -> NoDup (days (dl_append day c dl)))
  /\ index_size (dl_append day c dl) = S (index_size dl).
Proof.
  split; [| split; [| split]].
  - rewrite dl_lookup_dl_append, Z.eqb_refl. reflexivity.
  - intros other Hne. rewrite dl_lookup_dl_append.
    destruct (Z.eqb_spec day other); [congruence | reflexivity].
  - apply days_dl_append_NoDup.
  - apply index_size_dl_append.
Qed.

Lemma index_append_lookup_witness :
  dl_lookup 738886 (dl_append 738886 (12, 22)%float first_of_january)
  = Some [(10, 20)%float; (12, 22)%float]
  /\ NoDup (days (dl_append 738888 (12, 22)%float first_of_january)).
Proof.
  split.
  - exact (proj1 (index_append_lookup 738886 (12, 22)%float first_of_january)).
  - apply (proj1 (proj2 (proj2 (index_append_lookup 738888 (12, 22)%float
                                   first_of_january)))).
    apply NoDup_singleton.
Defined.

Section InferenceMore.

Variable local_date : Z -> Z.
Variable compensated_sum : bool.

Local Abbreviation rounded_mean := (rounded_mean compensated_sum).
Local Abbreviation average_coordinate := (average_coordinate compensated_sum).
Local Abbreviation infer_location := (infer_location local_date compensated_sum).
Local Abbreviation inferred_record := (inferred_record local_date compensated_sum).
Local Abbreviation index_add := (index_add local_date).

Lemma day_distance_zero a b : day_distance a b = 0 <-> a = b.
Proof. unfold day_distance. lia. Qed.

Lemma infer_same_day ts (dl : day_index) cs :
  dl_lookup (local_date ts) dl = Some cs ->
  cs <> [] ->
  infer_location ts dl
  = (Ok (Some (rounded_mean (map fst cs), rounded_mean (map snd cs), 0)), dl).
Proof.
  intros Hlook Hcs.
  assert (Hin : local_date ts ∈ days dl) by (apply dl_lookup_days; eauto).
  destruct (infer_location_indexed local_date compensated_sum ts dl)
    as (i & best & cs' & Hi & Hmin & Hlook' & Heq).
  { intros ->. inversion Hin. }
  apply list_elem_of_lookup in Hin. destruct Hin as [j Hj].
  destruct (Hmin j _ Hj) as [Hle _].
  assert (Hbest : best = local_date ts).
  { unfold day_distance in Hle. lia. }
  subst best. rewrite Hlook in Hlook'. injection Hlook' as <-.
  rewrite Heq. replace (day_distance (local_date ts) (local_date ts)) with 0
    by (unfold day_distance; lia).
  cbn. rewrite (average_coordinate_nonempty cs Hcs). reflexivity.
Qed.

(** A pending photo whose own day is in the index gets the average of that
    very day, with a day distance of 0, whatever other days are indexed. *)
Theorem same_day_inference ts (dl : day_index) cs :
  dl_lookup (local_date ts) dl = Some cs ->
  cs <> [] ->
  infer_location ts dl
  = (Ok (Some (rounded_mean (map fst cs), rounded_mean (map snd cs), 0)), dl).
Proof. apply infer_same_day. Qed.

Lemma infer_delta_facts ts (dl : day_index) la ln delta :
  fst (infer_location ts dl) = Ok (Some (la, ln, delta)) ->
  0 <= delta <= 3
  /\ (exists day, day ∈ days dl /\ day_distance day (local_date ts) = delta)
  /\ (forall d, d ∈ days dl -> delta <= day_distance d (local_date ts))
  /\ (delta = 0 <-> local_date ts ∈ days dl).
Proof.
  intros Hres.
  destruct dl as [| item dl'] eqn:E; [discriminate |]. rewrite <- E in *.
  destruct (infer_location_indexed local_date compensated_sum ts dl)
    as (i & best & cs & Hi & Hmin & Hlook & Heq).
  { rewrite E. discriminate. }
  rewrite Heq in Hres. cbn [fst] in Hres.
  destruct (Z.ltb_spec 3 (day_distance best (local_date ts))) as [Hfar | Hnear];
    [discriminate |].
  destruct (average_coordinate cs) as [c | x]; [| discriminate].
  cbn in Hres. injection Hres as _ _ <-.
  assert (Hbest : best ∈ days dl) by (apply list_elem_of_lookup; eauto).
  split; [unfold day_distance in *; lia |].
  split; [eauto |]. split.
  - intros d Hd. apply list_elem_of_lookup in Hd. destruct Hd as [j Hj].
    exact (proj1 (Hmin j d Hj)).
  - split.
    + intros H0. apply (proj1 (day_distance_zero _ _)) in H0.
      rewrite <- H0. exact Hbest.
    + intros Hin. apply list_elem_of_lookup in Hin. destruct Hin as [j Hj].
      destruct (Hmin j _ Hj) as [Hle _].
      unfold day_distance in *. lia.
Qed.

(** The day distance [infer_location] reports with a coordinate is the
    distance to the nearest indexed day; it lies between 0 and 3, and it is
    0 exactly when the photo's own day is indexed. *)
Theorem inferred_delta_range ts (dl : day_index) la ln delta :
  fst (infer_location ts dl) = Ok (Some (la, ln, delta)) ->
  0 <= delta <= 3
  /\ (exists day, day ∈ days dl /\ day_distance day (local_date ts) = delta)
  /\ (forall d, d ∈ days dl -> delta <= day_distance d (local_date ts))
  /\ (delta = 0 <-> local_date ts ∈ days dl).
Proof. apply infer_delta_facts. Qed.

(** One more geotagged photo never costs a pending photo its coordinate: a
    record inference resolves on an index is still resolved after a
    coordinate is added to the index. *)
Theorem more_fixes_keep_inference (dl : day_index) x e r :
  index_nonempty dl ->
  inferred_record dl e = Some r ->
  exists r', inferred_record (index_add dl x) e = Some r'.
Proof.
  intros Hwf Hr. unfold inferred_record in *.
  destruct (fst (infer_location (timestamp e) dl))
    as [[[[la ln] delta] |] | err] eqn:Hold; try discriminate.
  destruct (infer_delta_facts _ _ _ _ _ Hold)
    as (Hrange & (day & Hday & Hdist) & _ & _).
  assert (Hwf' : index_nonempty (index_add dl x)).
  { unfold index_add. destruct (lat x), (lng x); auto using dl_append_nonempty. }
  assert (Hday' : day ∈ days (index_add dl x)).
  { unfold index_add. destruct (lat x), (lng x); auto using days_dl_append_incl. }
  destruct (infer_location_indexed local_date compensated_sum (timestamp e) (index_add dl x))
    as (i & best & cs & Hi & Hmin & Hlook & Heq).
  { intros Hnil. rewrite Hnil in Hday'. inversion Hday'. }
  apply list_elem_of_lookup in Hday'. destruct Hday' as [j Hj].
  destruct (Hmin j day Hj) as [Hle _].
  rewrite Heq. cbn [fst].
  destruct (Z.ltb_spec 3 (day_distance best (local_date (timestamp e))));
    [lia |].
  rewrite (average_coordinate_nonempty cs (index_nonempty_lookup _ _ _ Hwf' Hlook)).
  cbn. eauto.
Qed.

End InferenceMore.

Lemma same_day_inference_witness :
  dl_lookup (utc_date (january 1)) new_year_index
  = Some [(10, 20)%float; (12, 22)%float]
  /\ infer_location utc_date false (january 1) new_year_index
     = (Ok (Some (rounded_mean false [10; 12]%float, rounded_mean false [20; 22]%float, 0)),
        new_year_index).
Proof.
  split; [reflexivity |].
  apply (same_day_inference utc_date false (january 1) new_year_index
           [(10, 20)%float; (12, 22)%float]); [reflexivity | discriminate].
Defined.

Lemma inferred_delta_range_witness :
  fst (infer_location utc_date false (january 3) new_year_index)
  = Ok (Some (11%float, 21%float, 2))
  /\ 0 <= 2 <= 3.
Proof.
  assert (H : fst (infer_location utc_date false (january 3) new_year_index)
              = Ok (Some (11%float, 21%float, 2))) by (vm_compute; reflexivity).
  split; [exact H |].
  exact (proj1 (inferred_delta_range utc_date false _ _ _ _ _ H)).
Defined.

Lemma more_fixes_keep_inference_witness :
  index_nonempty first_of_january
  /\ inferred_record utc_date false first_of_january (pending_on "b.jpg" 4)
     = Some (located (pending_on "b.jpg" 4) 10 20 true)
  /\ exists r',
       inferred_record utc_date false
         (index_add utc_date first_of_january
            (located (pending_on "d.jpg" 3) 12 22 false))
         (pending_on "b.jpg" 4) = Some r'.
Proof.
  assert (Hwf : index_nonempty first_of_january)
    by (repeat constructor; discriminate).
  assert (Hr : inferred_record utc_date false first_of_january (pending_on "b.jpg" 4)
               = Some (located (pending_on "b.jpg" 4) 10 20 true))
    by (vm_compute; reflexivity).
  split; [exact Hwf |]. split; [exact Hr |].
  exact (more_fixes_keep_inference utc_date false first_of_january _ _ _ Hwf Hr).
Defined.

(* ===================================================================== *)
(** ** More on the two passes *)
(* ===================================================================== *)

Section ScanMore.

Variable local_date : Z -> Z.
Variable compensated_sum : bool.
Variable HEIC_SUPPORT : bool.
Variable float_of_str : string -> option float.

Local Abbreviation infer_location := (infer_location local_date compensated_sum).
Local Abbreviation pass1_step := (pass1_step local_date HEIC_SUPPORT float_of_str).
Local Abbreviation pass1 := (pass1 local_date HEIC_SUPPORT float_of_str).
Local Abbreviation scan_run := (scan_run local_date compensated_sum HEIC_SUPPORT float_of_str).
Local Abbreviation scan_images := (scan_images local_date compensated_sum HEIC_SUPPORT float_of_str).
Local Abbreviation decodes := (decodes HEIC_SUPPORT float_of_str).
Local Abbreviation usable_record := (usable_record HEIC_SUPPORT).
Local Abbreviation exact_record := (exact_record HEIC_SUPPORT float_of_str).
Local Abbreviation pending_record := (pending_record HEIC_SUPPORT float_of_str).
Local Abbreviation inferred_record := (inferred_record local_date compensated_sum).
Local Abbreviation unresolved := (unresolved local_date compensated_sum).
Local Abbreviation index_of := (index_of local_date).
Local Abbreviation index_add := (index_add local_date).
Local Abbreviation with_exact := (with_exact local_date).
Local Abbreviation scan_outcome := (scan_outcome local_date compensated_sum HEIC_SUPPORT float_of_str).

Lemma run_outcome files :
  Forall decodes files -> scan_run files = Ok (scan_outcome files).
Proof. intros Hall. exact (proj2 (scan_run_outcome _ _ _ _ files Hall)). Qed.

Lemma exact_record_coords f x :
  exact_record f = Some x -> exists la ln, lat x = Some la /\ lng x = Some ln.
Proof.
  intros Hx. apply exact_record_shape in Hx.
  destruct Hx as (e & la & ln & _ & _ & ->). cbn. eauto.
Qed.

Lemma index_from_NoDup es dl :
  NoDup (days dl) -> NoDup (days (fold_left index_add es dl)).
Proof.
  revert dl. induction es as [| x es IH]; intros dl Hnd; cbn; [exact Hnd |].
  apply IH. unfold index_add.
  destruct (lat x), (lng x); auto using days_dl_append_NoDup.
Qed.

Lemma index_from_size es dl :
  Forall (fun x => exists la ln, lat x = Some la /\ lng x = Some ln) es ->
  index_size (fold_left index_add es dl) = (index_size dl + length es)%nat.
Proof.
  intros Hall. revert dl.
  induction Hall as [| x es (la & ln & Hla & Hln) Hes IH]; intros dl;
    cbn [fold_left length].
  - rewrite Nat.add_0_r. reflexivity.
  - rewrite IH. unfold index_add. rewrite Hla, Hln, index_size_dl_append. lia.
Qed.

Lemma index_from_keeps es dl day cs (c : coord) :
  dl_lookup day dl = Some cs -> c ∈ cs ->
  exists cs', dl_lookup day (fold_left index_add es dl) = Some cs' /\ c ∈ cs'.
Proof.
  revert dl cs. induction es as [| x es IH]; intros dl cs Hlook Hc; cbn; [eauto |].
  unfold index_add at 2.
  destruct (lat x) as [la |]; [| eauto]. destruct (lng x) as [ln |]; [| eauto].
  destruct (Z.eqb_spec (local_date (timestamp x)) day) as [Heq | Hne].
  - apply (IH _ (cs ++ [(la, ln)])).
    + rewrite dl_lookup_dl_append, Heq, Z.eqb_refl, Hlook. reflexivity.
    + apply elem_of_app. left. exact Hc.
  - apply (IH _ cs); [| exact Hc].
    rewrite dl_lookup_dl_append.
    destruct (Z.eqb_spec (local_date (timestamp x)) day); [contradiction | exact Hlook].
Qed.

Lemma index_from_holds es dl x la ln :
  x ∈ es -> lat x = Some la -> lng x = Some ln ->
  exists cs, dl_lookup (local_date (timestamp x)) (fold_left index_add es dl) = Some cs
             /\ (la, ln) ∈ cs.
Proof.
  revert dl. induction es as [| y es IH]; intros dl Hx Hla Hln; [inversion Hx |].
  apply elem_of_cons in Hx. destruct Hx as [<- | Hx]; cbn; [| eauto].
  eapply index_from_keeps.
  - unfold index_add. rewrite Hla, Hln, dl_lookup_dl_append, Z.eqb_refl. reflexivity.
  - apply elem_of_app. right. left.
Qed.

(** The index the run ends with is a well-formed dict of lists: its dates
    are distinct, none of them has an empty list, and it holds as many
    coordinates as there are records returned with [approximate] false. *)
Theorem scan_index_well_formed files :
  Forall decodes files ->
  exists st,
    scan_run files = Ok st
    /\ NoDup (days (day_locations st))
    /\ index_nonempty (day_locations st)
    /\ index_size (day_locations st)
       = length (List.filter is_exact (geotagged st)).
Proof.
  intros Hall. exists (scan_outcome files). split; [exact (run_outcome files Hall) |].
  cbn [scan_outcome day_locations geotagged]. unfold scan_outcome.
  cbn [day_locations geotagged]. split; [| split].
  - apply index_from_NoDup. constructor.
  - apply index_from_nonempty. constructor.
  - rewrite filter_exact_output. unfold index_of. rewrite index_from_size; [reflexivity |].
    apply Forall_forall. intros x Hx. apply list_elem_of_omap in Hx.
    destruct Hx as (f & _ & Hf). exact (exact_record_coords f x Hf).
Qed.

(** Every record returned with [approximate] false has its coordinate in
    the index under the day of its timestamp; so a pending photo taken on
    the local day of any such record is always given a coordinate. *)
Theorem exact_coordinates_indexed files :
  Forall decodes files ->
  exists st,
    scan_run files = Ok st
    /\ (forall x, x ∈ geotagged st -> approximate x = Some false ->
          exists la ln cs,
            lat x = Some la /\ lng x = Some ln
            /\ dl_lookup (local_date (timestamp x)) (day_locations st) = Some cs
            /\ (la, ln) ∈ cs)
    /\ (forall x p, x ∈ geotagged st -> approximate x = Some false ->
          p ∈ no_gps st ->
          local_date (timestamp p) = local_date (timestamp x) ->
          exists la ln, located p la ln true ∈ geotagged st).
Proof.
  intros Hall. exists (scan_outcome files). split; [exact (run_outcome files Hall) |].
  assert (Hidx : forall x, x ∈ geotagged (scan_outcome files) ->
            approximate x = Some false ->
            exists la ln cs,
              lat x = Some la /\ lng x = Some ln
              /\ dl_lookup (local_date (timestamp x))
                   (day_locations (scan_outcome files)) = Some cs
              /\ (la, ln) ∈ cs).
  { intros x Hx Happ. cbn in Hx. apply elem_of_app in Hx.
    destruct Hx as [Hx | Hx].
    - pose proof Hx as Hx'. apply list_elem_of_omap in Hx'.
      destruct Hx' as (f & _ & Hf).
      destruct (exact_record_coords f x Hf) as (la & ln & Hla & Hln).
      destruct (index_from_holds (omap exact_record files) [] x la ln Hx Hla Hln)
        as (cs & Hlook & Hc).
      exists la, ln, cs. auto.
    - pose proof (inferred_records_inferred local_date compensated_sum
                    (index_of (omap exact_record files))
                    (omap pending_record files)) as Hinf.
      rewrite Forall_forall in Hinf. specialize (Hinf x Hx).
      unfold is_inferred in Hinf. rewrite Happ in Hinf. discriminate. }
  split; [exact Hidx |].
  intros x p Hx Happ Hp Hday.
  destruct (Hidx x Hx Happ) as (la & ln & cs & _ & _ & Hlook & Hc).
  assert (Hcs : cs <> []) by (intros ->; inversion Hc).
  rewrite <- Hday in Hlook.
  pose proof (infer_same_day local_date compensated_sum (timestamp p) _ cs Hlook Hcs) as Hinf.
  eexists _, _. cbn. apply elem_of_app. right.
  apply list_elem_of_omap. exists p. split; [exact Hp |].
  unfold inferred_record. cbn in Hinf. rewrite Hinf. reflexivity.
Qed.

Lemma usable_record_split f :
  decodes f ->
  (length (option_list (exact_record f)) + length (option_list (pending_record f)))%nat
  = length (option_list (usable_record f)).
Proof.
  intros Hdec. unfold exact_record, pending_record, decodes in *.
  destruct (usable_record f) as [e |] eqn:He; cbn; [| reflexivity].
  destruct Hdec as [Hskip | [gps Hgps]].
  - unfold usable_record in He. rewrite Hskip in He. discriminate.
  - rewrite Hgps. destruct gps as [[la |] [ln |]]; reflexivity.
Qed.

Lemma omap_length_cons {A B} (g : A -> option B) x l :
  length (omap g (x :: l)) = (length (option_list (g x)) + length (omap g l))%nat.
Proof. cbn. destruct (g x); reflexivity. Qed.

Lemma usable_files_split files :
  Forall decodes files ->
  (length (omap exact_record files) + length (omap pending_record files))%nat
  = length (omap usable_record files).
Proof.
  induction 1 as [| f files Hf Hfiles IH]; [reflexivity |].
  rewrite !omap_length_cons, <- IH, <- (usable_record_split f Hf). lia.
Qed.

Lemma inferred_or_unresolved dl pend :
  index_nonempty dl ->
  (length (omap (inferred_record dl) pend) + length (List.filter (unresolved dl) pend))%nat
  = length pend.
Proof.
  intros Hwf. induction pend as [| e pend IH]; [reflexivity |].
  cbn [omap list_omap List.filter]. unfold inferred_record at 1, unresolved at 1.
  destruct (infer_location_returns local_date compensated_sum (timestamp e) dl Hwf) as [r Hr].
  rewrite Hr. destruct r as [[[la ln] delta] |]; cbn [length]; lia.
Qed.

(** Every usable file, one with HEIC support if it needs it, a capture
    time and a path to serve, is accounted for once: the returned records
    and the unresolved count add up to the number of usable files, and the
    pending pool is split between the inferred and the unresolved counts. *)
Theorem usable_files_accounted files :
  Forall decodes files ->
  exists st,
    scan_run files = Ok st
    /\ (length (geotagged st) + still_missing st)%nat
       = length (omap usable_record files)
    /\ length (no_gps st) = (inferred_count st + still_missing st)%nat.
Proof.
  intros Hall. exists (scan_outcome files). split; [exact (run_outcome files Hall) |].
  assert (Hwf : index_nonempty (index_of (omap exact_record files)))
    by (apply index_from_nonempty; constructor).
  pose proof (inferred_or_unresolved _ (omap pending_record files) Hwf) as Hsplit.
  pose proof (usable_files_split files Hall) as Husable.
  unfold scan_outcome; cbn [geotagged still_missing no_gps inferred_count].
  rewrite length_app. split; lia.
Qed.

Lemma usable_record_shape f e :
  usable_record f = Some e ->
  filename e = file_name f
  /\ date_taken f = Some (timestamp e)
  /\ Some (path e) = (if is_heic f then converted f else Some (file_path f))
  /\ (is_heic f = true -> HEIC_SUPPORT = true).
Proof.
  unfold usable_record.
  destruct (is_heic f && negb HEIC_SUPPORT) eqn:Hskip; [discriminate |].
  destruct (date_taken f) as [ts |]; cbn; [| discriminate].
  destruct (if is_heic f then converted f else Some (file_path f)) as [sp |]; cbn;
    [| discriminate].
  intros [= <-]. cbn. repeat split.
  intros Hheic. rewrite Hheic in Hskip. destruct HEIC_SUPPORT; [reflexivity | discriminate].
Qed.

Lemma pending_record_usable f p : pending_record f = Some p -> usable_record f = Some p.
Proof.
  unfold pending_record. destruct (usable_record f) as [e |]; cbn; [| discriminate].
  destruct (get_gps_info float_of_str (GPSInfo f)) as [[[la |] [ln |]] | err];
    congruence.
Qed.

(** Every returned record is complete and comes from a file: it has a
    latitude, a longitude and an [approximate] flag, the name and the
    capture time of a file of the collection, and the path of that file, or
    of its converted JPEG for a HEIC file, which is then one that HEIC
    support was there for. *)
Theorem returned_records_complete files :
  Forall decodes files ->
  exists out,
    scan_images (Some files) = Ok out
    /\ Forall (fun x =>
         exists f la ln approx,
           f ∈ files
           /\ filename x = file_name f
           /\ date_taken f = Some (timestamp x)
           /\ Some (path x) = (if is_heic f then converted f else Some (file_path f))
           /\ (is_heic f = true -> HEIC_SUPPORT = true)
           /\ lat x = Some la /\ lng x = Some ln /\ approximate x = Some approx)
         out.
Proof.
  intros Hall. exists (geotagged (scan_outcome files)).
  split; [unfold scan_images; rewrite (run_outcome files Hall); reflexivity |].
  apply Forall_forall. intros x Hx. cbn in Hx. apply elem_of_app in Hx.
  destruct Hx as [Hx | Hx]; apply list_elem_of_omap in Hx.
  - destruct Hx as (f & Hf & Hex). apply exact_record_shape in Hex.
    destruct Hex as (e & la & ln & He & _ & ->).
    destruct (usable_record_shape f e He) as (Hn & Hd & Hp & Hh).
    exists f, la, ln, false. cbn. auto 10.
  - destruct Hx as (p & Hp & Hinf). apply list_elem_of_omap in Hp.
    destruct Hp as (f & Hf & Hpend). apply pending_record_usable in Hpend.
    destruct (usable_record_shape f p Hpend) as (Hn & Hd & Hpa & Hh).
    unfold inferred_record in Hinf.
    destruct (fst (infer_location (timestamp p) _)) as [[[[la ln] delta] |] | err];
      try discriminate.
    injection Hinf as <-. exists f, la, ln, true. cbn. auto 10.
Qed.

Lemma pass1_step_no_support st f :
  HEIC_SUPPORT = false -> is_heic f = true -> pass1_step st f = Ok st.
Proof. intros Hno Hheic. unfold pass1_step. rewrite Hheic, Hno. reflexivity. Qed.

Lemma pass1_step_gps_error st f err :
  is_heic f && negb HEIC_SUPPORT = false ->
  get_gps_info float_of_str (GPSInfo f) = Raise err ->
  pass1_step st f = Raise err.
Proof. intros Hskip Hgps. unfold pass1_step. rewrite Hskip, Hgps. reflexivity. Qed.

(** Without HEIC support the HEIC files are not even decoded: the run is
    the run over the other files, whatever the HEIC files hold. *)
Theorem heic_files_ignored_without_support files :
  HEIC_SUPPORT = false ->
  scan_run files = scan_run (List.filter (fun f => negb (is_heic f)) files)
  /\ scan_images (Some files)
     = scan_images (Some (List.filter (fun f => negb (is_heic f)) files)).
Proof.
  intros Hno.
  assert (H1 : forall st,
            for_each pass1_step st files
            = for_each pass1_step st (List.filter (fun f => negb (is_heic f)) files)).
  { induction files as [| f files IH]; intros st; [reflexivity |].
    cbn [List.filter for_each]. destruct (is_heic f) eqn:Hheic; cbn [negb for_each].
    - rewrite (pass1_step_no_support st f Hno Hheic). cbn. apply IH.
    - destruct (pass1_step st f); cbn; [apply IH | reflexivity]. }
  assert (Hrun : scan_run files
                 = scan_run (List.filter (fun f => negb (is_heic f)) files)).
  { unfold scan_run, pass1. rewrite H1. reflexivity. }
  split; [exact Hrun |]. unfold scan_images. rewrite Hrun. reflexivity.
Qed.

(** A GPS block that makes [get_gps_info] raise aborts the whole run with
    that exception, also when the file has no capture time and would have
    been stepped over: the block is decoded before the time is looked at.
    Nothing of the files before or after it is returned. *)
Theorem gps_error_aborts_run before f after err :
  Forall decodes before ->
  is_heic f && negb HEIC_SUPPORT = false ->
  get_gps_info float_of_str (GPSInfo f) = Raise err ->
  scan_run (before ++ f :: after) = Raise err
  /\ scan_images (Some (before ++ f :: after)) = Raise err.
Proof.
  intros Hbefore Hskip Hgps.
  assert (Hrun : scan_run (before ++ f :: after) = Raise err).
  { unfold scan_run, pass1. rewrite for_each_app.
    rewrite (pass1_from local_date HEIC_SUPPORT float_of_str scan_init before Hbefore).
    cbn [mbind result_bind for_each].
    rewrite (pass1_step_gps_error _ f err Hskip Hgps). reflexivity. }
  split; [exact Hrun |]. unfold scan_images. rewrite Hrun. reflexivity.
Qed.

(** The two passes make the scan order between a photo without a
    coordinate and a geotagged one immaterial: exchanging two neighbours,
    one that yields no exact record and one that yields no pending record,
    changes nothing in the run.  A pending photo sees the fixes of files
    scanned after it.  At most one of the two is a HEIC file: the
    conversion of a HEIC file depends on the JPEGs that the HEIC files
    before it left in the converted folder, so that two HEIC files cannot
    be exchanged with their [converted] unchanged. *)
Theorem pending_and_exact_commute before p g after :
  is_heic p = false \/ is_heic g = false ->
  decodes p -> decodes g ->
  exact_record p = None ->
  pending_record g = None ->
  scan_run (before ++ p :: g :: after) = scan_run (before ++ g :: p :: after).
Proof.
  intros _ Hp Hg Hpe Hgp. unfold scan_run, pass1. rewrite !for_each_app.
  destruct (for_each pass1_step scan_init before) as [st |]; [| reflexivity].
  cbn [mbind result_bind for_each].
  rewrite (pass1_step_decoded local_date HEIC_SUPPORT float_of_str st p Hp).
  rewrite (pass1_step_decoded local_date HEIC_SUPPORT float_of_str st g Hg).
  cbn [mbind result_bind].
  rewrite (pass1_step_decoded local_date HEIC_SUPPORT float_of_str _ g Hg).
  rewrite (pass1_step_decoded local_date HEIC_SUPPORT float_of_str _ p Hp).
  rewrite Hpe, Hgp.
  destruct (pending_record p) as [e |], (exact_record g) as [x |]; reflexivity.
Qed.

Lemma index_days_of_exact files d :
  d ∈ days (index_of (omap exact_record files))
  <-> exists x, x ∈ omap exact_record files /\ local_date (timestamp x) = d.
Proof.
  split.
  - intros Hd. apply dl_lookup_days in Hd. destruct Hd as [cs Hlook].
    assert (Hwf : index_nonempty (index_of (omap exact_record files)))
      by (apply index_from_nonempty; constructor).
    pose proof (index_nonempty_lookup _ _ _ Hwf Hlook) as Hcs.
    destruct cs as [| c cs]; [congruence |].
    destruct (index_provenance local_date _ [] d (c :: cs) c Hlook ltac:(left))
      as [(cs0 & Hl0 & _) | (x & Hx & _ & _ & Hday)]; [discriminate | eauto].
  - intros (x & Hx & <-). pose proof Hx as Hx'.
    apply list_elem_of_omap in Hx'. destruct Hx' as (f & _ & Hf).
    destruct (exact_record_coords f x Hf) as (la & ln & Hla & Hln).
    destruct (index_from_holds (omap exact_record files) [] x la ln Hx Hla Hln)
      as (cs & Hlook & _).
    apply dl_lookup_days. eauto.
Qed.

Lemma unresolved_iff_all_far dl p :
  index_nonempty dl ->
  unresolved dl p = true
  <-> forall d, d ∈ days dl -> 3 < day_distance d (local_date (timestamp p)).
Proof.
  intros Hwf. unfold unresolved.
  destruct dl as [| item dl'] eqn:E.
  { cbn. split; [intros _ d Hd; inversion Hd | reflexivity]. }
  rewrite <- E in *.
  destruct (infer_location_indexed local_date compensated_sum (timestamp p) dl)
    as (i & best & cs & Hi & Hmin & Hlook & Heq).
  { rewrite E. discriminate. }
  assert (Hbest : best ∈ days dl) by (apply list_elem_of_lookup; eauto).
  rewrite Heq. cbn [fst].
  destruct (Z.ltb_spec 3 (day_distance best (local_date (timestamp p))))
    as [Hfar | Hnear].
  - split; [| reflexivity]. intros _ d Hd.
    apply list_elem_of_lookup in Hd. destruct Hd as [j Hj].
    destruct (Hmin j d Hj) as [Hle _]. lia.
  - rewrite (average_coordinate_nonempty cs (index_nonempty_lookup _ _ _ Hwf Hlook)).
    cbn. split; [discriminate |]. intros Hall. specialize (Hall best Hbest). lia.
Qed.

Lemma exact_of_output files x :
  x ∈ geotagged (scan_outcome files) /\ approximate x = Some false
  <-> x ∈ omap exact_record files.
Proof.
  cbn. rewrite elem_of_app. split.
  - intros [[Hx | Hx] Happ]; [exact Hx |].
    pose proof (inferred_records_inferred local_date compensated_sum
                  (index_of (omap exact_record files))
                  (omap pending_record files)) as Hinf.
    rewrite Forall_forall in Hinf. specialize (Hinf x Hx).
    unfold is_inferred in Hinf. rewrite Happ in Hinf. discriminate.
  - intros Hx. split; [left; exact Hx |].
    pose proof (exact_records_exact HEIC_SUPPORT float_of_str files) as Hex.
    rewrite Forall_forall in Hex. specialize (Hex x Hx). unfold is_exact in Hex.
    destruct (approximate x) as [[|] |]; congruence.
Qed.

(** A pending photo is left out exactly when every photo returned with a
    coordinate of its own was taken more than 3 local days from it. *)
Theorem unresolved_iff_no_fix_in_window files :
  Forall decodes files ->
  exists st,
    scan_run files = Ok st
    /\ forall p, p ∈ no_gps st ->
         (unresolved (day_locations st) p = true
          <-> forall x, x ∈ geotagged st -> approximate x = Some false ->
                3 < day_distance (local_date (timestamp x))
                      (local_date (timestamp p))).
Proof.
  intros Hall. exists (scan_outcome files). split; [exact (run_outcome files Hall) |].
  intros p _.
  assert (Hwf : index_nonempty (index_of (omap exact_record files)))
    by (apply index_from_nonempty; constructor).
  change (day_locations (scan_outcome files)) with (index_of (omap exact_record files)).
  rewrite (unresolved_iff_all_far _ p Hwf). split.
  - intros Hfar x Hx Happ. apply Hfar. apply index_days_of_exact.
    exists x. split; [| reflexivity]. apply exact_of_output. auto.
  - intros Hfar d Hd. apply index_days_of_exact in Hd.
    destruct Hd as (x & Hx & <-). apply exact_of_output in Hx.
    destruct Hx as [Hx Happ]. exact (Hfar x Hx Happ).
Qed.

End ScanMore.

Lemma scan_index_well_formed_witness :
  exists st,
    scan_run utc_date false true no_numeric_str (window_photos ++ [photo_of_third]) = Ok st
    /\ days (day_locations st) = [738886; 738888]
    /\ index_size (day_locations st) = 2%nat.
Proof.
  assert (Hall : Forall (decodes true no_numeric_str) (window_photos ++ [photo_of_third])).
  { apply Forall_app. split; [exact window_photos_decode |].
    apply Forall_cons; split; [| apply Forall_nil_2].
    right. eexists. vm_compute. reflexivity. }
  destruct (scan_index_well_formed utc_date false true no_numeric_str _ Hall)
    as (st & Hrun & _ & _ & Hsize).
  exists st. split; [exact Hrun |].
  split; [| rewrite Hsize]; vm_compute in Hrun; injection Hrun as <-; reflexivity.
Defined.

Lemma exact_coordinates_indexed_witness :
  exists st,
    scan_run utc_date false true no_numeric_str window_photos = Ok st
    /\ forall x, x ∈ geotagged st -> approximate x = Some false ->
         exists la ln cs,
           lat x = Some la /\ lng x = Some ln
           /\ dl_lookup (utc_date (timestamp x)) (day_locations st) = Some cs
           /\ (la, ln) ∈ cs.
Proof.
  destruct (exact_coordinates_indexed utc_date false true no_numeric_str window_photos
              window_photos_decode) as (st & Hrun & Hidx & _).
  exists st. split; [exact Hrun | exact Hidx].
Defined.

Lemma usable_files_accounted_witness :
  exists st,
    scan_run utc_date false true no_numeric_str (undated_photo :: window_photos) = Ok st
    /\ length (geotagged st) = 2%nat /\ still_missing st = 1%nat
    /\ length (omap (usable_record true) (undated_photo :: window_photos)) = 3%nat.
Proof.
  assert (Hall : Forall (decodes true no_numeric_str) (undated_photo :: window_photos)).
  { apply Forall_cons; split; [| exact window_photos_decode].
    right. eexists. vm_compute. reflexivity. }
  destruct (usable_files_accounted utc_date false true no_numeric_str _ Hall)
    as (st & Hrun & Hsum & _).
  exists st. split; [exact Hrun |].
  vm_compute in Hrun. injection Hrun as <-. repeat split; reflexivity.
Defined.

Lemma returned_records_complete_witness :
  exists out,
    scan_images utc_date false true no_numeric_str (Some window_photos) = Ok out
    /\ map lat out = [Some 10%float; Some 10%float].
Proof.
  destruct (returned_records_complete utc_date false true no_numeric_str window_photos
              window_photos_decode) as (out & Hout & _).
  exists out. split; [exact Hout |].
  vm_compute in Hout. injection Hout as <-. reflexivity.
Defined.

Lemma heic_files_ignored_without_support_witness :
  scan_run utc_date false false no_numeric_str
    [heic "h.heic" (Some gps_short_triple) (Some (january 1)) None; scanned_photo]
  = scan_run utc_date false false no_numeric_str [scanned_photo].
Proof.
  exact (proj1 (heic_files_ignored_without_support utc_date false false no_numeric_str
                  [heic "h.heic" (Some gps_short_triple) (Some (january 1)) None;
                   scanned_photo] eq_refl)).
Defined.

Lemma gps_error_aborts_run_witness :
  Forall (decodes true no_numeric_str) window_photos
  /\ get_gps_info no_numeric_str (GPSInfo broken_undated_photo) = Raise IndexError
  /\ scan_images utc_date false true no_numeric_str
       (Some (window_photos ++ broken_undated_photo :: [scanned_photo]))
     = Raise IndexError.
Proof.
  split; [exact window_photos_decode |].
  split; [vm_compute; reflexivity |].
  apply (gps_error_aborts_run utc_date false true no_numeric_str window_photos
           broken_undated_photo [scanned_photo] IndexError window_photos_decode).
  - reflexivity.
  - vm_compute. reflexivity.
Defined.

Lemma pending_and_exact_commute_witness :
  scan_run utc_date false true no_numeric_str
    (window_photos ++ scanned_photo :: photo_of_third :: [])
  = scan_run utc_date false true no_numeric_str
      (window_photos ++ photo_of_third :: scanned_photo :: []).
Proof.
  apply (pending_and_exact_commute utc_date false true no_numeric_str
           window_photos scanned_photo photo_of_third []).
  - left. reflexivity.
  - right. eexists. vm_compute. reflexivity.
  - right. eexists. vm_compute. reflexivity.
  - vm_compute. reflexivity.
  - vm_compute. reflexivity.
Defined.

Lemma unresolved_iff_no_fix_in_window_witness :
  exists st,
    scan_run utc_date false true no_numeric_str window_photos = Ok st
    /\ unresolved utc_date false (day_locations st) (pending_on "c.jpg" 5) = true
    /\ unresolved utc_date false (day_locations st) (pending_on "b.jpg" 4) = false.
Proof.
  destruct (unresolved_iff_no_fix_in_window utc_date false true no_numeric_str window_photos
              window_photos_decode) as (st & Hrun & _).
  exists st. split; [exact Hrun |].
  vm_compute in Hrun. injection Hrun as <-. split; vm_compute; reflexivity.
Defined.

(* ===================================================================== *)
(** ** The capture time *)
(* ===================================================================== *)

Section CaptureTimeFacts.

Variable capture_time_ms : pyval -> result Z.

Local Abbreviation date_from_tags := (date_from_tags capture_time_ms).
Local Abbreviation get_date_taken := (get_date_taken capture_time_ms).
Local Abbreviation tag_gives := (tag_gives capture_time_ms).
Local Abbreviation tag_passed := (tag_passed capture_time_ms).

(** What one round of the loop does with its tag. *)
Lemma date_from_tags_round exif tag rest :
  (exists ms, tag_gives exif tag ms
              /\ date_from_tags exif (tag :: rest) = Ok (Some ms))
  \/ (tag_passed exif tag
      /\ date_from_tags exif (tag :: rest) = date_from_tags exif rest)
  \/ (exists raw err,
        exif !! tag = Some raw /\ py_truthy raw = true
        /\ capture_time_ms raw = Raise err /\ err <> ValueError
        /\ date_from_tags exif (tag :: rest) = Raise err).
Proof.
  unfold tag_gives, tag_passed. cbn.
  destruct (exif !! tag) as [raw |] eqn:Hraw; [| right; left; auto].
  destruct (py_truthy raw) eqn:Htruthy; [| right; left; eauto 6].
  destruct (capture_time_ms raw) as [ms | err] eqn:Hparse; [left; eauto 7 |].
  right. destruct err;
    first [ left; split; [right; eauto 6 | reflexivity]
          | right; eexists raw, _; repeat split; eauto; discriminate ].
Qed.

Lemma tag_gives_not_passed exif tag ms :
  tag_gives exif tag ms -> tag_passed exif tag -> False.
Proof.
  intros (raw & Hraw & Htruthy & Hparse) [Hnone | (raw' & Hraw' & [Hf | Hv])];
    congruence.
Qed.

Lemma tag_gives_functional exif tag ms ms' :
  tag_gives exif tag ms -> tag_gives exif tag ms' -> ms = ms'.
Proof.
  intros (raw & Hraw & _ & Hparse) (raw' & Hraw' & _ & Hparse'). congruence.
Qed.

Lemma date_from_tags_some exif tags ms :
  date_from_tags exif tags = Ok (Some ms)
  <-> exists (i : nat) tag,
        tags !! i = Some tag /\ tag_gives exif tag ms
        /\ forall (j : nat) tag', (j < i)%nat -> tags !! j = Some tag' ->
             tag_passed exif tag'.
Proof.
  induction tags as [| tag rest IH].
  - split; [discriminate | intros (i & t & Hi & _); destruct i; discriminate].
  - destruct (date_from_tags_round exif tag rest)
      as [(ms0 & Hgives & Heq) | [(Hpassed & Heq) | (raw & err & Hraw & Ht & Hp & Hne & Heq)]];
      rewrite Heq.
    + split.
      * intros [= <-]. exists 0%nat, tag. split; [reflexivity |].
        split; [exact Hgives | intros j t Hj; lia].
      * intros ([| i] & t & Hi & Hg & Hbefore); cbn in Hi.
        -- injection Hi as <-. f_equal. f_equal.
           exact (tag_gives_functional _ _ _ _ Hgives Hg).
        -- exfalso. apply (tag_gives_not_passed _ _ _ Hgives).
           apply (Hbefore 0%nat tag); [lia | reflexivity].
    + rewrite IH. split.
      * intros (i & t & Hi & Hg & Hbefore). exists (S i), t.
        split; [exact Hi |]. split; [exact Hg |].
        intros [| j] t' Hj Ht'; cbn in Ht'.
        -- injection Ht' as <-. exact Hpassed.
        -- apply (Hbefore j t'); [lia | exact Ht'].
      * intros ([| i] & t & Hi & Hg & Hbefore); cbn in Hi.
        -- injection Hi as <-. exfalso.
           exact (tag_gives_not_passed _ _ _ Hg Hpassed).
        -- exists i, t. split; [exact Hi |]. split; [exact Hg |].
           intros j t' Hj Ht'. apply (Hbefore (S j) t'); [lia | exact Ht'].
    + split; [discriminate |].
      intros ([| i] & t & Hi & Hg & Hbefore); cbn in Hi; exfalso.
      * injection Hi as <-. destruct Hg as (raw' & Hraw' & _ & Hp'). congruence.
      * destruct (Hbefore 0%nat tag ltac:(lia) eq_refl)
          as [Hnone | (raw' & Hraw' & [Hf | Hv])]; congruence.
Qed.

Lemma date_from_tags_none exif tags :
  date_from_tags exif tags = Ok None <-> Forall (tag_passed exif) tags.
Proof.
  induction tags as [| tag rest IH]; [split; [constructor | reflexivity] |].
  destruct (date_from_tags_round exif tag rest)
    as [(ms0 & Hgives & Heq) | [(Hpassed & Heq) | (raw & err & Hraw & Ht & Hp & Hne & Heq)]];
    rewrite Heq.
  - split; [discriminate |]. intros Hall. apply Forall_cons in Hall.
    exfalso. exact (tag_gives_not_passed _ _ _ Hgives (proj1 Hall)).
  - rewrite IH. split; [intros H; constructor; assumption |].
    intros Hall. apply Forall_cons in Hall. exact (proj2 Hall).
  - split; [discriminate |]. intros Hall. apply Forall_cons in Hall.
    destruct (proj1 Hall) as [Hnone | (raw' & Hraw' & [Hf | Hv])]; congruence.
Qed.

(** The capture time is the one of the first of DateTimeOriginal,
    DateTimeDigitized and DateTime that holds a value in the format, every
    tag before it being missing, empty or out of format; and there is no
    capture time exactly when all three are. *)
Theorem get_date_taken_first_usable (exif : gmap string pyval) :
  (forall ms,
     get_date_taken exif = Ok (Some ms)
     <-> exists (i : nat) tag,
           date_tags !! i = Some tag /\ tag_gives exif tag ms
           /\ forall (j : nat) tag', (j < i)%nat -> date_tags !! j = Some tag' ->
                tag_passed exif tag')
  /\ (get_date_taken exif = Ok None
      <-> forall tag, tag ∈ date_tags -> tag_passed exif tag).
Proof.
  split.
  - intros ms. apply date_from_tags_some.
  - unfold get_date_taken. rewrite date_from_tags_none, Forall_forall. reflexivity.
Qed.

End CaptureTimeFacts.

(** An unreadable DateTimeOriginal gives way to DateTimeDigitized. *)
Lemma get_date_taken_first_usable_witness :
  get_date_taken ms_of_int exif_fallback = Ok (Some 1704110400000).
Proof.
  apply (proj1 (get_date_taken_first_usable ms_of_int exif_fallback)).
  exists 1%nat, "DateTimeDigitized"%string.
  split; [reflexivity |]. split.
  - exists (VInt 1704110400000). repeat split; vm_compute; reflexivity.
  - intros [| j] tag Hj Htag; [| lia]. injection Htag as <-.
    right. exists (VStr "0000:00:00 00:00:00").
    split; [vm_compute; reflexivity | right; reflexivity].
Defined.

(* ===================================================================== *)
(** ** HEIC conversion *)
(* ===================================================================== *)

(** A conversion adds at most its destination to the folder and returns
    nothing else than that destination, which is then present; and once the
    destination is present, every later call for a source of the same stem,
    from whatever folder and whatever its own transcoding would come to,
    returns it and writes nothing. *)
Theorem conversion_keyed_by_stem stem outcome (present : gset string) r after :
  convert_heic_to_jpeg stem outcome present = (r, after) ->
  present ⊆ after
  /\ after ⊆ {[jpeg_name stem]} ∪ present
  /\ (r = None \/ r = Some (jpeg_name stem) /\ jpeg_name stem ∈ after)
  /\ (jpeg_name stem ∈ after ->
      forall outcome',
        convert_heic_to_jpeg stem outcome' after = (Some (jpeg_name stem), after)).
Proof.
  intros Hcall.
  assert (Hagain : jpeg_name stem ∈ after ->
            forall outcome',
              convert_heic_to_jpeg stem outcome' after
              = (Some (jpeg_name stem), after)).
  { intros Hin outcome'. unfold convert_heic_to_jpeg.
    rewrite bool_decide_eq_true_2 by exact Hin. reflexivity. }
  unfold convert_heic_to_jpeg in Hcall.
  case_bool_decide as Hin.
  - injection Hcall as <- <-.
    split; [reflexivity |]. split; [apply union_subseteq_r |].
    split; [right; auto | exact Hagain].
  - destruct outcome as [| [|]]; injection Hcall as <- <-.
    + split; [apply union_subseteq_r |]. split; [reflexivity |].
      split; [right; split; [reflexivity | apply elem_of_union_l, elem_of_singleton; reflexivity] |].
      exact Hagain.
    + split; [apply union_subseteq_r |]. split; [reflexivity |].
      split; [left; reflexivity | exact Hagain].
    + split; [reflexivity |]. split; [apply union_subseteq_r |].
      split; [left; reflexivity | exact Hagain].
Qed.

Lemma conversion_keyed_by_stem_witness :
  convert_heic_to_jpeg "IMG_1" Saved ∅ = (Some "IMG_1.jpg"%string, {[ "IMG_1.jpg"%string ]} ∪ ∅)
  /\ convert_heic_to_jpeg "IMG_1" (Failed false) ({[ "IMG_1.jpg"%string ]} ∪ ∅)
     = (Some "IMG_1.jpg"%string, {[ "IMG_1.jpg"%string ]} ∪ ∅).
Proof.
  assert (H : convert_heic_to_jpeg "IMG_1" Saved ∅
              = (Some "IMG_1.jpg"%string, {[ "IMG_1.jpg"%string ]} ∪ ∅))
    by reflexivity.
  split; [exact H |].
  destruct (conversion_keyed_by_stem "IMG_1" Saved ∅ _ _ H) as (_ & _ & _ & Hagain).
  apply Hagain. apply elem_of_union_l, elem_of_singleton. reflexivity.
Defined.
